(** * The in-memory entity store of the loyalty administration panel

    A shallow embedding of the mock data service: the module-level entity
    arrays, the generic CRUD service produced by [generateCrudService] and
    the relationship queries, then the components that call them (the data
    table, the offers page, the totals of the dashboard and of the charts,
    the session of the administrator), followed by the properties of the
    CRUD contract and of the components.

    Modelling choices.
    - A record is a JavaScript object with scalar fields, read by property
      name: a finite map from field names to values.  Reading an absent
      property gives [VUndefined], as in JavaScript.
    - A number is an integer-valued double, an infinity or NaN; fractional
      numbers are outside the model.  Addition is the addition of doubles:
      the exact sum rounded to the nearest double, ties to even, so that it
      is exact up to 2^53 in absolute value and rounds beyond.
    - Every service function awaits [delay ms] and then runs its body without
      interruption; the model is that body, as a function from the array
      before to the returned value and the array after. *)

From stdpp Require Import gmap strings list fin_maps.
From Stdlib Require Import ZArith.

Local Open Scope Z_scope.

(** ** JavaScript values *)

Inductive num : Type :=
  | NaN
  | NegInfinity
  | Int (z : Z)
  | PosInfinity.

Inductive value : Type :=
  | VUndefined
  | VNull
  | VBool (b : bool)
  | VNum (n : num)
  | VStr (s : string).

#[global] Instance num_eq_dec : EqDecision num.
Proof. solve_decision. Defined.

#[global] Instance value_eq_dec : EqDecision value.
Proof. solve_decision. Defined.

(** A record: the own properties of an object. *)
Abbreviation record := (gmap string value).

(** [item[key]] *)
Definition prop (item : record) (key : string) : value :=
  default VUndefined (item !! key).

(** [a === b] on scalars: same type and same value, and NaN equals nothing. *)
Definition strict_equal (a b : value) : Prop := a = b ∧ a ≠ VNum NaN.

#[global] Instance strict_equal_dec a b : Decision (strict_equal a b).
Proof. unfold strict_equal. apply _. Defined.

(** [Number(v)].  The conversion of a string is ECMAScript's StringToNumber,
    a function of the runtime: it is a parameter. *)
Definition Number (StringToNumber : string → num) (v : value) : num :=
  match v with
  | VUndefined => NaN
  | VNull => Int 0
  | VBool true => Int 1
  | VBool false => Int 0
  | VNum n => n
  | VStr s => StringToNumber s
  end.

(** The larger of two numbers, NaN if either is. *)
Definition num_max (a b : num) : num :=
  match a, b with
  | NaN, _ | _, NaN => NaN
  | PosInfinity, _ | _, PosInfinity => PosInfinity
  | NegInfinity, x | x, NegInfinity => x
  | Int x, Int y => Int (Z.max x y)
  end.

(** [Math.max(...xs)]: -Infinity for no argument. *)
Definition Math_max (xs : list num) : num := foldr num_max NegInfinity xs.

(** The double nearest to the integer [z], ties to the even significand:
    [z] itself below 2^53 in absolute value; beyond, the nearest multiple
    of the spacing 2^(e-52) of the doubles in [2^e, 2^(e+1)); an infinity
    from 2^1024 on. *)
Definition round_double (z : Z) : num :=
  let a := Z.abs z in
  if a <? 2 ^ 53 then Int z
  else
    let ulp := 2 ^ (Z.log2 a - 52) in
    let q := a / ulp in
    let r := a mod ulp in
    let q' := if 2 * r <? ulp then q
              else if ulp <? 2 * r then q + 1
              else if Z.even q then q else q + 1 in
    let m := q' * ulp in
    if 2 ^ 1024 <=? m
    then (if z <? 0 then NegInfinity else PosInfinity)
    else Int (Z.sgn z * m).

(** [a + b] on numbers: the exact sum of two integers, rounded. *)
Definition num_add (a b : num) : num :=
  match a, b with
  | NaN, _ | _, NaN => NaN
  | PosInfinity, NegInfinity | NegInfinity, PosInfinity => NaN
  | PosInfinity, _ | _, PosInfinity => PosInfinity
  | NegInfinity, _ | _, NegInfinity => NegInfinity
  | Int x, Int y => round_double (x + y)
  end.

(** [xs.findIndex(P)] and [xs.find(P)]; [None] is -1, respectively
    undefined. *)
Definition findIndex {A} (P : A → Prop) `{∀ x, Decision (P x)}
    (xs : list A) : option nat :=
  fst <$> list_find P xs.

Definition find {A} (P : A → Prop) `{∀ x, Decision (P x)}
    (xs : list A) : option A :=
  snd <$> list_find P xs.

(** ** The generic CRUD service *)

Module generateCrudService.
Section Service.

Variable StringToNumber : string → num.
Variable primaryKey : string.

(** [getAll]: a copy of the array. *)
Definition getAll (items : list record) : list record * list record :=
  ([] ++ items, items).

Definition getById (items : list record) (id : value)
    : option record * list record :=
  (find (λ item, strict_equal (prop item primaryKey) id) items, items).

Definition create (items : list record) (item : record)
    : record * list record :=
  let maxId :=
    if bool_decide (0 < length items)%nat
    then Math_max ((λ i, Number StringToNumber (prop i primaryKey)) <$> items)
    else Int 0 in
  let newId := num_add maxId (Int 1) in
  let newItem := <[primaryKey := VNum newId]> item in
  (newItem, items ++ [newItem]).

Definition update (items : list record) (id : value) (updates : record)
    : option record * list record :=
  match findIndex (λ item, strict_equal (prop item primaryKey) id) items with
  | None => (None, items)
  | Some index =>
      let items' := <[index := updates ∪ (items !!! index)]> items in
      (Some (items' !!! index), items')
  end.

Definition delete (items : list record) (id : value)
    : bool * list record :=
  let initialLength := length items in
  let filtered :=
    filter (λ item, ¬ strict_equal (prop item primaryKey) id) items in
  if bool_decide (length filtered = initialLength)
  then (false, items)
  else (true, [] ++ filtered).

End Service.
End generateCrudService.

(** ** The entity arrays

    The state of the module: the arrays it declares with [let]. *)

Record store : Type := mkStore {
  businesses : list record;
  products : list record;
  customers : list record;
  offers : list record;
  transactions : list record;
  redemptions : list record;
  loyalties : list record;
  tierSystems : list record;
  customerTiers : list record;
  referralPrograms : list record;
  feedbacks : list record;
  promotions : list record;
  fraudDetections : list record;
  analytics : list record
}.

Definition n (z : Z) : value := VNum (Int z).

(** The initial contents of the arrays.  Amounts such as [1200.00] are the
    integers they denote. *)
Definition initialStore : store := {|
  businesses :=
    [ {[ "B_ID" := n 1; "name" := VStr "Acme Corporation"; "phone" := VStr "555-123-4567";
         "industry" := VStr "Technology"; "address" := VStr "123 Tech Lane"; "offer_id" := n 1 ]};
      {[ "B_ID" := n 2; "name" := VStr "Global Retail"; "phone" := VStr "555-987-6543";
         "industry" := VStr "Retail"; "address" := VStr "456 Shop Street"; "offer_id" := n 2 ]};
      {[ "B_ID" := n 3; "name" := VStr "Food Delights"; "phone" := VStr "555-456-7890";
         "industry" := VStr "Food & Beverage"; "address" := VStr "789 Taste Avenue"; "offer_id" := n 3 ]} ];
  products :=
    [ {[ "P_ID" := n 1; "name" := VStr "Laptop Pro"; "category" := VStr "Electronics" ]};
      {[ "P_ID" := n 2; "name" := VStr "Office Chair"; "category" := VStr "Furniture" ]};
      {[ "P_ID" := n 3; "name" := VStr "Coffee Maker"; "category" := VStr "Appliances" ]} ];
  customers :=
    [ {[ "C_ID" := n 1; "name" := VStr "John Doe"; "email" := VStr "john@example.com";
         "phone" := VStr "555-111-2222"; "join_date" := VStr "2023-01-15" ]};
      {[ "C_ID" := n 2; "name" := VStr "Jane Smith"; "email" := VStr "jane@example.com";
         "phone" := VStr "555-333-4444"; "join_date" := VStr "2023-02-20" ]};
      {[ "C_ID" := n 3; "name" := VStr "Bob Johnson"; "email" := VStr "bob@example.com";
         "phone" := VStr "555-555-6666"; "join_date" := VStr "2023-03-10" ]} ];
  offers :=
    [ {[ "offer_id" := n 1; "O_name" := VStr "Summer Sale"; "B_ID" := n 1 ]};
      {[ "offer_id" := n 2; "O_name" := VStr "Holiday Special"; "B_ID" := n 2 ]};
      {[ "offer_id" := n 3; "O_name" := VStr "Weekend Deal"; "B_ID" := n 3 ]} ];
  transactions :=
    [ {[ "T_ID" := n 1; "C_ID" := n 1; "P_ID" := n 1; "Amount" := n 1200;
         "Date" := VStr "2023-06-15T14:30:00" ]};
      {[ "T_ID" := n 2; "C_ID" := n 2; "P_ID" := n 2; "Amount" := n 150;
         "Date" := VStr "2023-06-20T10:15:00" ]};
      {[ "T_ID" := n 3; "C_ID" := n 3; "P_ID" := n 3; "Amount" := n 80;
         "Date" := VStr "2023-06-25T16:45:00" ]} ];
  redemptions :=
    [ {[ "R_ID" := n 1; "points_used" := n 500; "T_ID" := n 1 ]};
      {[ "R_ID" := n 2; "points_used" := n 200; "T_ID" := n 2 ]} ];
  loyalties :=
    [ {[ "L_ID" := n 1; "points" := n 1000; "issue_date" := VStr "2023-01-20";
         "exp_date" := VStr "2024-01-20" ]};
      {[ "L_ID" := n 2; "points" := n 750; "issue_date" := VStr "2023-02-25";
         "exp_date" := VStr "2024-02-25" ]} ];
  tierSystems :=
    [ {[ "tier_id" := n 1; "name" := VStr "Bronze"; "benefits" := VStr "Basic rewards, 5% discount" ]};
      {[ "tier_id" := n 2; "name" := VStr "Silver"; "benefits" := VStr "Free shipping, 10% discount" ]};
      {[ "tier_id" := n 3; "name" := VStr "Gold";
         "benefits" := VStr "Priority support, 15% discount, exclusive offers" ]} ];
  customerTiers :=
    [ {[ "CT_ID" := n 1; "C_ID" := n 1; "tier_id" := n 3;
         "enrollment_date" := VStr "2023-01-20"; "status" := VStr "active" ]};
      {[ "CT_ID" := n 2; "C_ID" := n 2; "tier_id" := n 2;
         "enrollment_date" := VStr "2023-02-25"; "status" := VStr "active" ]};
      {[ "CT_ID" := n 3; "C_ID" := n 3; "tier_id" := n 1;
         "enrollment_date" := VStr "2023-03-15"; "status" := VStr "pending" ]} ];
  referralPrograms :=
    [ {[ "Referral_id" := n 1; "Referred_id" := n 101; "Referred_C_id" := n 1;
         "Point_awarded" := n 250; "exp_date" := VStr "2024-06-30" ]};
      {[ "Referral_id" := n 2; "Referred_id" := n 102; "Referred_C_id" := n 2;
         "Point_awarded" := n 250; "exp_date" := VStr "2024-07-15" ]} ];
  feedbacks :=
    [ {[ "Feedback_id" := n 1; "B_ID" := n 1; "C_ID" := n 1 ]};
      {[ "Feedback_id" := n 2; "B_ID" := n 2; "C_ID" := n 2 ]} ];
  promotions :=
    [ {[ "P_ID" := n 1; "start_date" := VStr "2023-07-01"; "end_date" := VStr "2023-07-31" ]};
      {[ "P_ID" := n 2; "start_date" := VStr "2023-08-01"; "end_date" := VStr "2023-08-31" ]} ];
  fraudDetections :=
    [ {[ "Fraud_id" := n 1; "C_ID" := n 3 ]} ];
  analytics :=
    [ {[ "analytics_id" := n 1; "B_ID" := n 1; "transaction_count" := n 150;
         "total_revenue" := n 15000; "reporting_date" := VStr "2023-06-30" ]};
      {[ "analytics_id" := n 2; "B_ID" := n 2; "transaction_count" := n 120;
         "total_revenue" := n 12000; "reporting_date" := VStr "2023-06-30" ]};
      {[ "analytics_id" := n 3; "B_ID" := n 3; "transaction_count" := n 90;
         "total_revenue" := n 9000; "reporting_date" := VStr "2023-06-30" ]} ]
|}.

(** ** Relationship queries

    Each query reads one array of the current state. *)

Definition getBusinessOffers (s : store) (businessId : num)
    : list record :=
  filter (λ offer, strict_equal (prop offer "B_ID") (VNum businessId)) (offers s).

Definition getBusinessFeedback (s : store) (businessId : num)
    : list record :=
  filter (λ feedback, strict_equal (prop feedback "B_ID") (VNum businessId))
    (feedbacks s).

Definition getBusinessAnalytics (s : store) (businessId : num)
    : list record :=
  filter (λ analytic, strict_equal (prop analytic "B_ID") (VNum businessId))
    (analytics s).

Definition getCustomerTransactions (s : store)
    (customerId : num) : list record :=
  filter (λ transaction, strict_equal (prop transaction "C_ID") (VNum customerId))
    (transactions s).

Definition getCustomerTier (s : store) (customerId : num)
    : option record :=
  find (λ tier, strict_equal (prop tier "C_ID") (VNum customerId)) (customerTiers s).

Definition getCustomerReferrals (s : store)
    (customerId : num) : list record :=
  filter (λ referral, strict_equal (prop referral "Referred_C_id") (VNum customerId))
    (referralPrograms s).

Definition getCustomerFeedback (s : store) (customerId : num)
    : list record :=
  filter (λ feedback, strict_equal (prop feedback "C_ID") (VNum customerId))
    (feedbacks s).

Definition getCustomerFraudDetections (s : store)
    (customerId : num) : list record :=
  filter (λ fraud, strict_equal (prop fraud "C_ID") (VNum customerId))
    (fraudDetections s).

Definition getTransactionRedemptions (s : store)
    (transactionId : num) : list record :=
  filter (λ redemption, strict_equal (prop redemption "T_ID") (VNum transactionId))
    (redemptions s).


(** [customerTierService.create], on the whole state. *)
Definition customerTierService_create (StringToNumber : string → num)
    (s : store) (item : record) : record * store :=
  let '(newItem, items) :=
    generateCrudService.create StringToNumber "CT_ID" (customerTiers s) item in
  (newItem,
   mkStore (businesses s) (products s) (customers s) (offers s)
     (transactions s) (redemptions s) (loyalties s) (tierSystems s)
     items (referralPrograms s) (feedbacks s) (promotions s)
     (fraudDetections s) (analytics s)).

(** ** Inputs of the examples *)

(** The initial arrays have numeric keys only, so the conversion of strings
    is never consulted on them; the examples fix it to a constant. *)
Definition anyStringToNumber : string → num := λ _, NaN.

(** Fields as the forms submit them. *)
Definition newBusiness : record :=
  {[ "name" := VStr "Corner Cafe"; "phone" := VStr "555-000-1111";
     "industry" := VStr "Food & Beverage"; "address" := VStr "1 Main Street";
     "offer_id" := VNull ]}.

Definition newTransaction : record :=
  {[ "C_ID" := n 2; "P_ID" := n 1; "Amount" := n 40;
     "Date" := VStr "2023-07-01T09:00:00" ]}.

(** A second tier enrolment of customer 1. *)
Definition secondTier : record :=
  {[ "C_ID" := n 1; "tier_id" := n 2;
     "enrollment_date" := VStr "2023-05-01"; "status" := VStr "active" ]}.

(** Partial fields that name the primary key of a business. *)
Definition rekeyBusiness : record := {[ "B_ID" := n 2 ]}.

Definition renameBusiness : record := {[ "name" := VStr "Acme Holdings" ]}.

(** A business whose key is 2^53, and one whose key is Infinity. *)
Definition hugeBusiness : record :=
  {[ "B_ID" := n 9007199254740992; "name" := VStr "Last Stop" ]}.

Definition endlessBusiness : record :=
  {[ "B_ID" := VNum PosInfinity; "name" := VStr "Far Out" ]}.

(** Businesses whose keys are strings of digits. *)
Definition stringKeyed : list record :=
  [ {[ "B_ID" := VStr "1"; "name" := VStr "First" ]};
    {[ "B_ID" := VStr "2"; "name" := VStr "Second" ]} ].

(** A business without the primary-key field. *)
Definition unkeyedBusiness : record := {[ "name" := VStr "Side Door" ]}.

(** A run of the runtime functions for the examples: the conversion of the
    digits of the initial ids, the empty rendering of numbers, no change of
    case, and an empty serialisation. *)
Definition digitToNumber : string → num :=
  λ s, if decide (s = "1") then Int 1
       else if decide (s = "2") then Int 2
       else if decide (s = "3") then Int 3
       else NaN.

Definition anyNumberToString : num → string := λ _, "".

Definition anyToLowerCase : string → string := λ s, s.

Definition anyJSON_stringify : record → string := λ _, "".

(** ** Vocabulary of the contract *)

(** [selected P xs ys]: [ys] is [xs] restricted to the elements satisfying
    [P], in the order of [xs] and with their multiplicity. *)
Inductive selected {A} (P : A → Prop) : list A → list A → Prop :=
  | selected_nil : selected P [] []
  | selected_keep x xs ys : P x → selected P xs ys → selected P (x :: xs) (x :: ys)
  | selected_skip x xs ys : ¬ P x → selected P xs ys → selected P (x :: xs) ys.

(** [first_match P xs i x]: [x] is at index [i] of [xs], satisfies [P], and
    nothing before it does. *)
Definition first_match {A} (P : A → Prop) (xs : list A) (i : nat) (x : A) : Prop :=
  xs !! i = Some x ∧ P x ∧ ∀ j y, xs !! j = Some y → (j < i)%nat → ¬ P y.

(** The order of the numbers; NaN is comparable with nothing. *)
Definition num_le (a b : num) : Prop :=
  match a, b with
  | NaN, _ | _, NaN => False
  | NegInfinity, _ | _, PosInfinity => True
  | Int x, Int y => x ≤ y
  | _, _ => False
  end.

(** A safe integer: below 2^53 in absolute value, where the doubles are the
    integers and adding 1 is exact. *)
Definition safe (z : Z) : Prop := - 2 ^ 53 < z < 2 ^ 53.

Section Vocabulary.

Variable primaryKey : string.

(** The record's key is strictly equal to [id]. *)
Definition has_id (id : value) (item : record) : Prop :=
  strict_equal (prop item primaryKey) id.

(** Some record of the array has the id. *)
Definition id_exists (items : list record) (id : value) : Prop :=
  ∃ item, item ∈ items ∧ has_id id item.

(** Every record carries an integer under the primary key, as the ids
    the services hand out are.  NaN and the infinities, numbers too for
    JavaScript, are not ids. *)
Definition numeric_keys (items : list record) : Prop :=
  Forall (λ item, ∃ z, prop item primaryKey = VNum (Int z)) items.

(** [m] is the largest id of the array. *)
Definition is_max_id (items : list record) (m : Z) : Prop :=
  (∃ item, item ∈ items ∧ prop item primaryKey = VNum (Int m)) ∧
  ∀ item z, item ∈ items → prop item primaryKey = VNum (Int z) → z ≤ m.

(** The primary-key values, in array order, and their distinctness. *)
Definition keys (items : list record) : list value :=
  (λ item, prop item primaryKey) <$> items.

Definition keys_distinct (items : list record) : Prop := NoDup (keys items).

(** Every record carries a number under the primary key: an integer, an
    infinity or NaN. *)
Definition number_keys (items : list record) : Prop :=
  Forall (λ item, ∃ k, prop item primaryKey = VNum k) items.

(** [m] is what [Math.max] makes of number keys: a key that every key is at
    most, or NaN when NaN is among them. *)
Definition is_largest_key (items : list record) (m : num) : Prop :=
  (∃ item, item ∈ items ∧ prop item primaryKey = VNum m) ∧
  (m ≠ NaN →
   ∀ item k, item ∈ items → prop item primaryKey = VNum k → num_le k m).

(** Every record carries an integer under the primary key, above -2^53 and
    below [bound]; safe keys are those below 2^53. *)
Definition keys_below (bound : Z) (items : list record) : Prop :=
  Forall (λ item, ∃ z, prop item primaryKey = VNum (Int z) ∧
                       - 2 ^ 53 < z < bound) items.

Definition safe_keys (items : list record) : Prop :=
  keys_below (2 ^ 53) items.

End Vocabulary.

Section ConvertedKeys.

Variable StringToNumber : string → num.
Variable primaryKey : string.

(** The keys, converted as [create] converts them, are integers and [m] is
    the largest.  So it is with integer keys, and with keys that are
    strings of digits, booleans or null. *)
Definition converted_max (items : list record) (m : Z) : Prop :=
  (∃ item, item ∈ items ∧
           Number StringToNumber (prop item primaryKey) = Int m) ∧
  ∀ item, item ∈ items →
          ∃ z, Number StringToNumber (prop item primaryKey) = Int z ∧ z ≤ m.

End ConvertedKeys.

(** ** Vocabulary of sequences of calls *)

(** A call of a service by a page. *)
Inductive call : Type :=
  | Create (fields : record)
  | Update (id : value) (updates : record)
  | Delete (id : value).

Section Calls.

Variable StringToNumber : string → num.
Variable primaryKey : string.

(** The partial fields leave the key of the record with id [id] as it is:
    they do not carry the primary key, or carry it with the id itself. *)
Definition keeps_key (id : value) (updates : record) : Prop :=
  ∀ v, updates !! primaryKey = Some v → strict_equal v id.

(** The array after one call, and after a sequence of calls. *)
Definition perform (items : list record) (c : call) : list record :=
  match c with
  | Create fields =>
      (generateCrudService.create StringToNumber primaryKey items fields).2
  | Update id updates =>
      (generateCrudService.update primaryKey items id updates).2
  | Delete id => (generateCrudService.delete primaryKey items id).2
  end.

Definition perform_all (items : list record) (cs : list call) : list record :=
  foldl perform items cs.

(** The call is not an update that changes a primary key. *)
Definition key_preserving (c : call) : Prop :=
  match c with
  | Update id updates => keeps_key id updates
  | _ => True
  end.

End Calls.

(** ** The data table

    The table component that the pages hand the result of [getAll] to.  Its
    state is the search term and the page number; the rows it shows are
    computed from them and from the data at every rendering. *)

(** [String(value)], also the conversion in a template literal.  The
    conversion of a number is Number::toString of the runtime: it is a
    parameter. *)
Definition String_of_value (NumberToString : num → string) (v : value)
    : string :=
  match v with
  | VUndefined => "undefined"
  | VNull => "null"
  | VBool true => "true"
  | VBool false => "false"
  | VNum k => NumberToString k
  | VStr s => s
  end.

(** [s.includes(t)] *)
Fixpoint includes (s t : string) : bool :=
  String.prefix t s ||
  match s with
  | EmptyString => false
  | String _ s' => includes s' t
  end.

(** [xs.slice(start, end)] for integer arguments: a negative index counts
    from the end, and both are clipped to the array. *)
Definition slice {A} (xs : list A) (start end_ : Z) : list A :=
  let len := Z.of_nat (length xs) in
  let k := if decide (start < 0) then Z.max (len + start) 0
           else Z.min start len in
  let final := if decide (end_ < 0) then Z.max (len + end_) 0
               else Z.min end_ len in
  take (Z.to_nat (final - k)) (drop (Z.to_nat k) xs).

(** [Math.ceil(a / b)] for integers [a] and [b > 0]: the ceiling of the
    quotient is minus the floor of its opposite. *)
Definition Math_ceil_div (a b : Z) : Z := - ((- a) / b).

(** [Object.values(item)].  The order is not the insertion order of the
    object; the table only asks whether some value matches. *)
Definition Object_values (item : record) : list value :=
  (map_to_list item).*2.

Module DataTable.

Definition itemsPerPage : Z := 10.

Section Component.

(** [String.prototype.toLowerCase] and the conversion of a number to a
    string are functions of the runtime: they are parameters. *)
Variable toLowerCase : string → string.
Variable NumberToString : num → string.

(** The callback of [data.filter]: some value of the item, other than null
    and undefined, contains the search term, both in lower case. *)
Definition matches_search (searchTerm : string) (item : record) : Prop :=
  Exists (λ v,
            v ≠ VNull ∧ v ≠ VUndefined ∧
            includes (toLowerCase (String_of_value NumberToString v))
                     (toLowerCase searchTerm) = true)
         (Object_values item).

#[global] Instance matches_search_dec searchTerm item :
  Decision (matches_search searchTerm item).
Proof. unfold matches_search. apply _. Defined.

(** The empty search term is falsy: no filtering. *)
Definition filteredData (searchTerm : string) (data : list record)
    : list record :=
  if decide (searchTerm = "") then data
  else filter (matches_search searchTerm) data.

Definition totalPages (searchTerm : string) (data : list record) : Z :=
  Math_ceil_div (Z.of_nat (length (filteredData searchTerm data))) itemsPerPage.

Definition startIndex (page : Z) : Z := (page - 1) * itemsPerPage.

Definition paginatedData (searchTerm : string) (page : Z)
    (data : list record) : list record :=
  slice (filteredData searchTerm data)
        (startIndex page) (startIndex page + itemsPerPage).

(** [goToPage(newPage)]: the page number it sets. *)
Definition goToPage (searchTerm : string) (data : list record)
    (newPage : Z) : Z :=
  Z.max 1 (Z.min newPage (totalPages searchTerm data)).

(** What the rendering branches on: the row "No records found" and the
    pagination controls. *)
Definition rendersNoRecords (isLoading : bool) (searchTerm : string)
    (page : Z) (data : list record) : bool :=
  negb isLoading &&
  bool_decide (length (paginatedData searchTerm page data) = 0%nat).

Definition rendersPagination (searchTerm : string) (data : list record)
    : bool :=
  bool_decide (totalPages searchTerm data > 1).

End Component.

End DataTable.

(** ** The offers page

    The services of offers and businesses on the whole state, and the page
    that calls them: its form, its handlers and the Business column of its
    table. *)

Definition with_offers (s : store) (items : list record) : store :=
  mkStore (businesses s) (products s) (customers s) items
    (transactions s) (redemptions s) (loyalties s) (tierSystems s)
    (customerTiers s) (referralPrograms s) (feedbacks s) (promotions s)
    (fraudDetections s) (analytics s).

Definition with_businesses (s : store) (items : list record) : store :=
  mkStore items (products s) (customers s) (offers s)
    (transactions s) (redemptions s) (loyalties s) (tierSystems s)
    (customerTiers s) (referralPrograms s) (feedbacks s) (promotions s)
    (fraudDetections s) (analytics s).

Definition offerService_getAll (s : store) : list record * store :=
  let '(result, items) := generateCrudService.getAll (offers s) in
  (result, with_offers s items).

Definition offerService_create (StringToNumber : string → num)
    (s : store) (item : record) : record * store :=
  let '(newItem, items) :=
    generateCrudService.create StringToNumber "offer_id" (offers s) item in
  (newItem, with_offers s items).

Definition offerService_update (s : store) (id : value) (updates : record)
    : option record * store :=
  let '(result, items) :=
    generateCrudService.update "offer_id" (offers s) id updates in
  (result, with_offers s items).

Definition offerService_delete (s : store) (id : value) : bool * store :=
  let '(result, items) :=
    generateCrudService.delete "offer_id" (offers s) id in
  (result, with_offers s items).

Definition businessService_getAll (s : store) : list record * store :=
  let '(result, items) := generateCrudService.getAll (businesses s) in
  (result, with_businesses s items).

Definition businessService_delete (s : store) (id : value) : bool * store :=
  let '(result, items) :=
    generateCrudService.delete "B_ID" (businesses s) id in
  (result, with_businesses s items).

(** A call of [toast]: the variant, the title and the description. *)
Record Toast : Type := mkToast {
  variant : option string;
  title : string;
  description : string
}.

Module OfferPage.

(** The validated form: [O_name] is a string, [B_ID] a string or
    undefined. *)
Record FormData : Type := mkFormData {
  O_name : string;
  B_ID : option string
}.

(** The state of the component, and the toasts it has raised, latest
    last. *)
Record State : Type := mkState {
  offers : list record;
  businesses : list record;
  isLoading : bool;
  isDialogOpen : bool;
  currentOffer : option record;
  toasts : list Toast
}.

Definition initialState : State := mkState [] [] true false None [].

(** The events of the page: it is mounted, a button is clicked, the form is
    submitted, the bin of a row is clicked and the question answered. *)
Inductive Event : Type :=
  | Mount
  | ClickAdd
  | ClickEdit (offer : record)
  | Submit (data : FormData)
  | AskDelete (confirmed : bool) (offer : record).

Section Handlers.

Variable StringToNumber : string → num.
Variable NumberToString : num → string.

(** [fetchData], run when the page is mounted.  The services do not throw:
    the [catch] branch is never taken. *)
Definition fetchData (s : store) (st : State) : store * State :=
  let '(offersData, s1) := offerService_getAll s in
  let '(businessesData, s2) := businessService_getAll s1 in
  (s2, mkState offersData businessesData false (isDialogOpen st)
         (currentOffer st) (toasts st)).

(** [data.B_ID ? Number(data.B_ID) : null]: undefined and the empty string
    are falsy. *)
Definition offerData (data : FormData) : record :=
  {[ "O_name" := VStr (O_name data);
     "B_ID" := match B_ID data with
               | Some b => if decide (b = "") then VNull
                           else VNum (Number StringToNumber (VStr b))
               | None => VNull
               end ]}.

Definition onSubmit (data : FormData) (s : store) (st : State)
    : store * State :=
  let '(s1, raised) :=
    match currentOffer st with
    | Some current =>
        ((offerService_update s (prop current "offer_id") (offerData data)).2,
         mkToast None "Offer updated"
           (O_name data ++ " has been updated successfully"))
    | None =>
        ((offerService_create StringToNumber s (offerData data)).2,
         mkToast None "Offer created"
           (O_name data ++ " has been added successfully"))
    end in
  let '(updatedOffers, s2) := offerService_getAll s1 in
  (s2, mkState updatedOffers (businesses st) (isLoading st) false
         (currentOffer st) (toasts st ++ [raised])).

(** [handleDelete]; [confirmed] is the answer to [window.confirm]. *)
Definition handleDelete (confirmed : bool) (offer : record) (s : store)
    (st : State) : store * State :=
  if confirmed then
    let s1 := (offerService_delete s (prop offer "offer_id")).2 in
    let '(updatedOffers, s2) := offerService_getAll s1 in
    (s2, mkState updatedOffers (businesses st) (isLoading st)
           (isDialogOpen st) (currentOffer st)
           (toasts st ++
              [mkToast None "Offer deleted"
                 (String_of_value NumberToString (prop offer "O_name")
                    ++ " has been removed")]))
  else (s, st).

(** The buttons: "Add Offer" and the pencil of a row. *)
Definition clickAdd (st : State) : State :=
  mkState (offers st) (businesses st) (isLoading st) true None (toasts st).

Definition clickEdit (offer : record) (st : State) : State :=
  mkState (offers st) (businesses st) (isLoading st) true (Some offer)
    (toasts st).

(** The accessor of the Business column. *)
Definition businessColumn (st : State) (offer : record) : value :=
  match find (λ b, strict_equal (prop b "B_ID") (prop offer "B_ID"))
             (businesses st) with
  | Some business => prop business "name"
  | None => VStr "-"
  end.

(** What happens to the page, one event after the other. *)
Definition react (w : store * State) (e : Event) : store * State :=
  match e with
  | Mount => fetchData w.1 w.2
  | ClickAdd => (w.1, clickAdd w.2)
  | ClickEdit offer => (w.1, clickEdit offer w.2)
  | Submit data => onSubmit data w.1 w.2
  | AskDelete confirmed offer => handleDelete confirmed offer w.1 w.2
  end.

Definition react_all (w : store * State) (es : list Event) : store * State :=
  foldl react w es.

End Handlers.

End OfferPage.

(** ** Totals on the dashboard and in the charts *)

(** Truthiness of a scalar. *)
Definition truthy (v : value) : bool :=
  match v with
  | VUndefined | VNull => false
  | VBool b => b
  | VNum NaN => false
  | VNum (Int z) => negb (z =? 0)
  | VNum _ => true
  | VStr s => negb (String.eqb s "")
  end.

(** A [Map] keyed by scalars: the entries in insertion order.  Keys are
    compared by SameValueZero, which on these values is equality (NaN is
    equal to NaN). *)
Definition Map_has {V} (m : list (value * V)) (k : value) : bool :=
  bool_decide (k ∈ m.*1).

Definition Map_get {V} (m : list (value * V)) (k : value) : option V :=
  snd <$> find (λ e, e.1 = k) m.

(** [m.set(k, v)]: an existing key keeps its place. *)
Definition Map_set {V} (m : list (value * V)) (k : value) (v : V)
    : list (value * V) :=
  match findIndex (λ e, e.1 = k) m with
  | Some i => <[i := (k, v)]> m
  | None => m ++ [(k, v)]
  end.

(** [Array.from(m.values())] *)
Definition Map_values {V} (m : list (value * V)) : list V := m.*2.

(** [a + b] on scalars: concatenation when either is a string, addition of
    the operands converted to numbers otherwise. *)
Definition js_plus (StringToNumber : string → num)
    (NumberToString : num → string) (a b : value) : value :=
  match a, b with
  | VStr _, _ | _, VStr _ =>
      VStr (String_of_value NumberToString a
            ++ String_of_value NumberToString b)
  | _, _ => VNum (num_add (Number StringToNumber a) (Number StringToNumber b))
  end.

Module Dashboard.
Section Component.

Variable StringToNumber : string → num.
Variable NumberToString : num → string.

(** [transactions.reduce((sum, t) => sum + t.Amount, 0)] and its twin over
    the analytics. *)
Definition totalRevenue (transactions : list record) : value :=
  foldl (λ sum transaction,
           js_plus StringToNumber NumberToString sum
             (prop transaction "Amount"))
        (VNum (Int 0)) transactions.

Definition analyticsTotalRevenue (analytics : list record) : value :=
  foldl (λ sum analytic,
           js_plus StringToNumber NumberToString sum
             (prop analytic "total_revenue"))
        (VNum (Int 0)) analytics.

End Component.
End Dashboard.

Module AnalyticsCharts.

(** A slice of the pie of revenue by business. *)
Record Slice : Type := mkSlice {
  name : value;
  revenue : value
}.

Section Component.

Variable StringToNumber : string → num.
Variable NumberToString : num → string.

(** [business?.name || `Business ${analytic.B_ID}`] *)
Definition businessName (businesses : list record) (analytic : record)
    : value :=
  let business :=
    find (λ b, strict_equal (prop b "B_ID") (prop analytic "B_ID"))
         businesses in
  let name := match business with
              | Some b => prop b "name"
              | None => VUndefined
              end in
  if truthy name then name
  else VStr ("Business "
             ++ String_of_value NumberToString (prop analytic "B_ID")).

(** The body of [analytics.forEach] in [revenueByBusinessData].  Where the
    map has the key, [get] returns its slice: the [None] branch is never
    taken. *)
Definition addToBusinessMap (businesses : list record)
    (businessMap : list (value * Slice)) (analytic : record)
    : list (value * Slice) :=
  let businessName := businessName businesses analytic in
  if Map_has businessMap (prop analytic "B_ID") then
    match Map_get businessMap (prop analytic "B_ID") with
    | Some existing =>
        Map_set businessMap (prop analytic "B_ID")
          (mkSlice businessName
             (js_plus StringToNumber NumberToString (revenue existing)
                (prop analytic "total_revenue")))
    | None => businessMap
    end
  else
    Map_set businessMap (prop analytic "B_ID")
      (mkSlice businessName (prop analytic "total_revenue")).

Definition revenueByBusinessData (analytics businesses : list record)
    : list Slice :=
  Map_values (foldl (addToBusinessMap businesses) [] analytics).

End Component.
End AnalyticsCharts.

(** ** Vocabulary of the totals *)

(** The integer a record carries in a field, and the sum over an array;
    every record carries an integer in the field. *)
Definition int_field (field : string) (item : record) : Z :=
  match prop item field with
  | VNum (Int z) => z
  | _ => 0
  end.

Definition sum_field (field : string) (items : list record) : Z :=
  foldr (λ item acc, int_field field item + acc) 0 items.

Definition integer_field (field : string) (items : list record) : Prop :=
  Forall (λ item, ∃ z, prop item field = VNum (Int z)) items.

(** Every record carries a non-negative integer in the field.  With a sum
    of at most 2^53 every partial sum is a double and no addition rounds. *)
Definition natural_field (field : string) (items : list record) : Prop :=
  Forall (λ item, ∃ z, prop item field = VNum (Int z) ∧ 0 ≤ z) items.

(** The sum of the revenues of slices that are integers. *)
Definition slice_sum (slices : list AnalyticsCharts.Slice) : Z :=
  foldr (λ sl acc, match AnalyticsCharts.revenue sl with
                   | VNum (Int z) => z + acc
                   | _ => acc
                   end) 0 slices.

(** A slice whose revenue is a non-negative integer. *)
Definition natural_slice (sl : AnalyticsCharts.Slice) : Prop :=
  ∃ z, AnalyticsCharts.revenue sl = VNum (Int z) ∧ 0 ≤ z.

(** What the map holds once the analytics [done] are added: one entry for
    each business id among them, with non-negative integer revenues that
    add up to the revenues of [done]. *)
Definition grouped (m : list (value * AnalyticsCharts.Slice))
    (done : list record) : Prop :=
  NoDup m.*1 ∧
  (∀ k, k ∈ m.*1 ↔ k ∈ (λ a, prop a "B_ID") <$> done) ∧
  Forall natural_slice m.*2 ∧
  slice_sum m.*2 = sum_field "total_revenue" done.

(** ** The session of the administrator

    The authentication context: the mock administrators, the state of the
    provider and the [localStorage] of the browser, which is taken to accept
    every [setItem]. *)

Module AuthContext.

Definition MOCK_ADMINS : list record :=
  [ {[ "A_ID" := n 1; "username" := VStr "admin";
       "password" := VStr "admin123"; "email" := VStr "admin@example.com";
       "role" := VStr "superadmin" ]};
    {[ "A_ID" := n 2; "username" := VStr "manager";
       "password" := VStr "manager123"; "email" := VStr "manager@example.com";
       "role" := VStr "manager" ]} ].

Record State : Type := mkState {
  admin : option record;
  isLoading : bool;
  localStorage : gmap string string;
  toasts : list Toast
}.

(** [isAuthenticated: !!admin] *)
Definition isAuthenticated (st : State) : bool :=
  match admin st with
  | Some _ => true
  | None => false
  end.

(** What happens to the session. *)
Inductive Event : Type :=
  | Login (username password : string)
  | Logout.

Section Provider.

(** [JSON.stringify] on an administrator and the conversion of a number to
    a string belong to the runtime: they are parameters. *)
Variable JSON_stringify : record → string.
Variable NumberToString : num → string.

(** [login]: the value it resolves to and the state it leaves. *)
Definition login (username password : string) (st : State) : bool * State :=
  let foundAdmin :=
    find (λ admin,
            strict_equal (prop admin "username") (VStr username) ∧
            strict_equal (prop admin "password") (VStr password))
         MOCK_ADMINS in
  match foundAdmin with
  | Some foundAdmin =>
      let adminWithoutPassword := delete "password" foundAdmin in
      (true,
       mkState (Some adminWithoutPassword) false
         (<["admin" := JSON_stringify adminWithoutPassword]> (localStorage st))
         (toasts st ++
            [mkToast None "Login successful"
               ("Welcome back, "
                ++ String_of_value NumberToString (prop foundAdmin "username")
                ++ "!")]))
  | None =>
      (false,
       mkState (admin st) false (localStorage st)
         (toasts st ++
            [mkToast (Some "destructive") "Login failed"
               "Invalid username or password"]))
  end.

Definition logout (st : State) : State :=
  mkState None (isLoading st) (delete "admin" (localStorage st))
    (toasts st ++
       [mkToast None "Logged out" "You have been logged out successfully"]).

Definition react (st : State) (e : Event) : State :=
  match e with
  | Login username password => (login username password st).2
  | Logout => logout st
  end.

Definition react_all (st : State) (es : list Event) : State :=
  foldl react st es.

(** State and storage agree: the administrator of the state is a mock
    administrator without the password and the storage holds that
    administrator, or there is neither. *)
Definition session_in_sync (st : State) : Prop :=
  match admin st with
  | Some a =>
      (∃ m, m ∈ MOCK_ADMINS ∧ a = delete "password" m) ∧
      localStorage st !! "admin" = Some (JSON_stringify a)
  | None => localStorage st !! "admin" = None
  end.

End Provider.

End AuthContext.

(** ** Inputs of the page examples *)

(** The form of the offers page, without a business and with business 2. *)
Definition springSale : OfferPage.FormData :=
  OfferPage.mkFormData "Spring Sale" None.

Definition springSaleAt2 : OfferPage.FormData :=
  OfferPage.mkFormData "Spring Sale" (Some "2").

(** The first initial offer, and an offer that the store does not hold. *)
Definition summerSale : record :=
  {[ "offer_id" := n 1; "O_name" := VStr "Summer Sale"; "B_ID" := n 1 ]}.

Definition goneOffer : record :=
  {[ "offer_id" := n 7; "O_name" := VStr "Gone"; "B_ID" := n 1 ]}.

(** The first initial transaction, and a transaction whose amount is NaN. *)
Definition firstTransaction : record :=
  {[ "T_ID" := n 1; "C_ID" := n 1; "P_ID" := n 1; "Amount" := n 1200;
     "Date" := VStr "2023-06-15T14:30:00" ]}.

Definition unpricedTransaction : record :=
  {[ "T_ID" := n 4; "C_ID" := n 1; "P_ID" := n 1; "Amount" := VNum NaN;
     "Date" := VStr "2023-07-02T09:00:00" ]}.

(** What happens to the offers page in the example. *)
Definition offerEvents : list OfferPage.Event :=
  [ OfferPage.Mount; OfferPage.ClickAdd; OfferPage.Submit springSale;
    OfferPage.ClickEdit summerSale; OfferPage.Submit springSaleAt2;
    OfferPage.AskDelete true summerSale ].

(** The session before anybody logs in, and what happens to it. *)
Definition loggedOut : AuthContext.State :=
  AuthContext.mkState None true ∅ [].

Definition sessionEvents : list AuthContext.Event :=
  [ AuthContext.Login "admin" "admin123"; AuthContext.Logout;
    AuthContext.Login "admin" "wrong" ].

(** ** Facts about the JavaScript primitives *)

Lemma round_double_exact z :
  - 2 ^ 53 ≤ z ≤ 2 ^ 53 → round_double z = Int z.
Proof.
  intros Hz. unfold round_double. cbv zeta.
  destruct (Z.ltb_spec (Z.abs z) (2 ^ 53)) as [|Hge]; [done|].
  assert (z = 2 ^ 53 ∨ z = - 2 ^ 53) as [-> | ->] by lia; reflexivity.
Qed.

Lemma num_add_succ m : safe m → num_add (Int m) (Int 1) = Int (m + 1).
Proof.
  intros [Hlo Hhi]. cbn [num_add]. apply round_double_exact. lia.
Qed.

Lemma num_add_exact x y :
  - 2 ^ 53 ≤ x + y ≤ 2 ^ 53 → num_add (Int x) (Int y) = Int (x + y).
Proof. intros Hxy. cbn [num_add]. by apply round_double_exact. Qed.

Lemma num_le_refl k : k ≠ NaN → num_le k k.
Proof. destruct k; cbn; [done..|lia|done]. Qed.

Lemma num_le_trans a b c : num_le a b → num_le b c → num_le a c.
Proof. destruct a, b, c; cbn; try done; lia. Qed.

Lemma num_max_cases a b :
  a ≠ NaN → b ≠ NaN →
  (num_max a b = a ∨ num_max a b = b) ∧
  num_le a (num_max a b) ∧ num_le b (num_max a b).
Proof.
  destruct a as [| |x|], b as [| |y|]; cbn; try done; intros _ _;
    try (split_and!; (by auto) || lia).
  destruct (Z.max_spec x y) as [[? ->]|[? ->]]; split_and!; auto; lia.
Qed.

Lemma Math_max_cons x xs : Math_max (x :: xs) = num_max x (Math_max xs).
Proof. reflexivity. Qed.

Lemma Math_max_largest xs :
  xs ≠ [] →
  Math_max xs ∈ xs ∧
  (Math_max xs ≠ NaN → ∀ k, k ∈ xs → num_le k (Math_max xs)).
Proof.
  induction xs as [|x xs IH]; [done|]. intros _.
  rewrite Math_max_cons. destruct xs as [|y xs].
  - assert (num_max x (Math_max []) = x) as -> by (by destruct x).
    split; [by left|].
    intros Hnan k ->%list_elem_of_singleton. by apply num_le_refl.
  - destruct IH as [Hin Hle]; [done|].
    set (M := Math_max (y :: xs)) in *.
    destruct (decide (x = NaN)) as [->|Hx]; [split; [by left|done]|].
    destruct (decide (M = NaN)) as [HM|HM].
    { rewrite HM in *. assert (num_max x NaN = NaN) as -> by (by destruct x).
      split; [by right|done]. }
    destruct (num_max_cases x M Hx HM) as ([HMx|HMx] & Hx_le & HM_le);
      rewrite HMx in *.
    + split; [by left|]. intros _ k [->|Hk]%elem_of_cons; [done|].
      eapply num_le_trans; [by apply Hle|done].
    + split; [by right|]. intros _ k [->|Hk]%elem_of_cons; [done|].
      by apply Hle.
Qed.

Lemma strict_equal_eq a b : strict_equal a b → a = b.
Proof. by intros [? _]. Qed.

Lemma strict_equal_int z v : strict_equal v (VNum (Int z)) ↔ v = VNum (Int z).
Proof.
  split; [apply strict_equal_eq|].
  intros ->. by split.
Qed.

Lemma prop_insert_eq (item : record) k v : prop (<[k := v]> item) k = v.
Proof. unfold prop. by rewrite lookup_insert_eq. Qed.

Lemma prop_insert_ne (item : record) k k' v :
  k ≠ k' → prop (<[k := v]> item) k' = prop item k'.
Proof. intros Hne. unfold prop. by rewrite lookup_insert_ne. Qed.

Lemma strict_equal_NaN_r v : ¬ strict_equal v (VNum NaN).
Proof. intros [-> Hne]. by apply Hne. Qed.

Lemma strict_equal_num_str nn s : ¬ strict_equal (VNum nn) (VStr s).
Proof. by intros [? _]. Qed.

Lemma findIndex_Some {A} (P : A → Prop) `{∀ x, Decision (P x)} xs i :
  findIndex P xs = Some i ↔ ∃ x, first_match P xs i x.
Proof.
  unfold findIndex, first_match. split.
  - destruct (list_find P xs) as [[j x]|] eqn:E; [|done].
    intros [= <-]. exists x. by apply list_find_Some in E.
  - intros [x Hx].
    assert (list_find P xs = Some (i, x)) as -> by (by apply list_find_Some).
    done.
Qed.

Lemma find_Some {A} (P : A → Prop) `{∀ x, Decision (P x)} xs x :
  find P xs = Some x ↔ ∃ i, first_match P xs i x.
Proof.
  unfold find, first_match. split.
  - destruct (list_find P xs) as [[j y]|] eqn:E; [|done].
    intros [= <-]. exists j. by apply list_find_Some in E.
  - intros [i Hx].
    assert (list_find P xs = Some (i, x)) as -> by (by apply list_find_Some).
    done.
Qed.

Lemma find_None {A} (P : A → Prop) `{∀ x, Decision (P x)} xs :
  find P xs = None ↔ Forall (λ x, ¬ P x) xs.
Proof.
  unfold find. split.
  - intros Hn. apply (proj1 (list_find_None P xs)).
    by destruct (list_find P xs).
  - intros Hn. by rewrite (proj2 (list_find_None P xs) Hn).
Qed.

Lemma findIndex_None {A} (P : A → Prop) `{∀ x, Decision (P x)} xs :
  findIndex P xs = None ↔ Forall (λ x, ¬ P x) xs.
Proof.
  unfold findIndex. split.
  - intros Hn. apply (proj1 (list_find_None P xs)).
    by destruct (list_find P xs).
  - intros Hn. by rewrite (proj2 (list_find_None P xs) Hn).
Qed.

Lemma filter_selected {A} (P : A → Prop) `{∀ x, Decision (P x)} xs :
  selected P xs (filter P xs).
Proof.
  induction xs as [|x xs IH]; [constructor|].
  destruct (decide (P x)) as [HP|HP].
  - rewrite filter_cons_True by done. by constructor.
  - rewrite filter_cons_False by done. by constructor.
Qed.

Lemma selected_unique {A} (P : A → Prop) xs ys zs :
  selected P xs ys → selected P xs zs → ys = zs.
Proof.
  intros Hy. revert zs.
  induction Hy as [|x xs ys HP _ IH|x xs ys HP _ IH];
    intros zs Hz; inversion Hz; subst; try contradiction; auto.
  f_equal. auto.
Qed.

Lemma filter_all {A} (P : A → Prop) `{∀ x, Decision (P x)} xs :
  Forall P xs → filter P xs = xs.
Proof.
  induction 1 as [|x xs HP _ IH]; [done|].
  rewrite filter_cons_True by done. by rewrite IH.
Qed.

Lemma filter_length_eq {A} (P : A → Prop) `{∀ x, Decision (P x)} xs :
  length (filter P xs) = length xs → Forall P xs.
Proof.
  intros Hlen. apply Forall_forall. intros x Hx.
  destruct (decide (P x)) as [|HP]; [done|].
  pose proof (length_filter_lt P xs x Hx HP). lia.
Qed.

Lemma NoDup_insert_fresh (l : list value) i v :
  NoDup l → v ∉ l → NoDup (<[i := v]> l).
Proof.
  intros Hnd Hv. destruct (decide (i < length l)%nat) as [Hi|Hi].
  - rewrite insert_take_drop by done.
    destruct (lookup_lt_is_Some_2 l i Hi) as [x Hx].
    rewrite <- (take_drop_middle l i x Hx) in Hnd, Hv.
    apply NoDup_app in Hnd as (Ht & Hdisj & (_ & Hd)%NoDup_cons).
    apply not_elem_of_app in Hv as [Hvt Hvd%not_elem_of_cons].
    apply NoDup_app. split_and!; [done| |].
    + intros y Hy [->|Hyd]%elem_of_cons; [done|].
      apply (Hdisj y Hy). by right.
    + apply NoDup_cons. split; [exact (proj2 Hvd)|done].
  - rewrite list_insert_ge by lia. done.
Qed.

(** ** The CRUD contract *)

Section Contract.

Variable StringToNumber : string → num.
Variable primaryKey : string.

Local Abbreviation getAll := generateCrudService.getAll.
Local Abbreviation getById := (generateCrudService.getById primaryKey).
Local Abbreviation create := (generateCrudService.create StringToNumber primaryKey).
Local Abbreviation update := (generateCrudService.update primaryKey).
Local Abbreviation delete := (generateCrudService.delete primaryKey).
Local Abbreviation has_id := (has_id primaryKey).
Local Abbreviation id_exists := (id_exists primaryKey).
Local Abbreviation numeric_keys := (numeric_keys primaryKey).
Local Abbreviation is_max_id := (is_max_id primaryKey).
Local Abbreviation keys := (keys primaryKey).
Local Abbreviation keys_distinct := (keys_distinct primaryKey).
Local Abbreviation number_keys := (number_keys primaryKey).
Local Abbreviation is_largest_key := (is_largest_key primaryKey).
Local Abbreviation keys_below := (keys_below primaryKey).
Local Abbreviation safe_keys := (safe_keys primaryKey).
Local Abbreviation converted_max := (converted_max StringToNumber primaryKey).
Local Abbreviation key_numbers :=
  (fmap (λ i : record, Number StringToNumber (prop i primaryKey))).

(** *** The largest id *)

Lemma Math_max_numeric items :
  numeric_keys items → items ≠ [] →
  ∃ m, Math_max (key_numbers items) = Int m ∧ is_max_id items m.
Proof.
  induction 1 as [|item items [z Hz] Hall IH]; [done|]. intros _.
  destruct items as [|item' items'].
  - exists z. cbn. rewrite Hz. cbn. split; [done|]. split.
    + exists item. split; [set_solver|done].
    + intros i z' Hi Hz'. apply list_elem_of_singleton in Hi as ->.
      rewrite Hz in Hz'. injection Hz' as ->. lia.
  - destruct IH as (m & Hm & (w & Hw & Hwm) & Hle); [done|].
    exists (Z.max z m). split.
    + change (key_numbers (item :: item' :: items'))
        with (Number StringToNumber (prop item primaryKey)
              :: key_numbers (item' :: items')).
      unfold Math_max in *. rewrite foldr_cons, Hm, Hz. done.
    + split.
      * destruct (Z.max_spec z m) as [[_ ->]|[_ ->]].
        -- exists w. split; [by right|done].
        -- exists item. split; [by left|done].
      * intros i z' Hi Hz'. apply elem_of_cons in Hi as [->|Hi].
        -- rewrite Hz in Hz'. injection Hz' as ->. lia.
        -- specialize (Hle i z' Hi Hz'). lia.
Qed.

Lemma create_unfold items item :
  create items item =
    let newId :=
      num_add (match items with
               | [] => Int 0
               | _ => Math_max (key_numbers items)
               end) (Int 1) in
    (<[primaryKey := VNum newId]> item,
     items ++ [<[primaryKey := VNum newId]> item]).
Proof. by destruct items. Qed.

Lemma keys_below_numeric bound items :
  keys_below bound items → numeric_keys items.
Proof.
  intros Hb. eapply Forall_impl; [exact Hb|].
  intros item (z & Hz & _). by exists z.
Qed.

Lemma keys_below_max bound items m :
  keys_below bound items → is_max_id items m → - 2 ^ 53 < m < bound.
Proof.
  intros Hb [(item & Hin & Hm) _].
  destruct (proj1 (Forall_forall _ _) Hb item Hin) as (z & Hz & Hrange).
  rewrite Hm in Hz. by injection Hz as ->.
Qed.

Lemma Math_max_number_keys items :
  number_keys items → items ≠ [] →
  is_largest_key items (Math_max (key_numbers items)).
Proof.
  intros Hnum Hne.
  destruct (Math_max_largest (key_numbers items)) as [Hin Hle].
  { by destruct items. }
  split.
  - apply list_elem_of_fmap in Hin as (item & HM & Hitem).
    exists item. split; [done|].
    destruct (proj1 (Forall_forall _ _) Hnum item Hitem) as [k Hk].
    rewrite Hk in HM. cbn in HM. by rewrite HM.
  - intros Hnan item k Hitem Hk. apply Hle; [done|].
    replace k with (Number StringToNumber (prop item primaryKey))
      by (by rewrite Hk).
    by apply (list_elem_of_fmap_2
                (λ i : record, Number StringToNumber (prop i primaryKey))).
Qed.

Lemma Math_max_int_bound xs m z :
  Math_max xs = Int m → Int z ∈ xs → z ≤ m.
Proof.
  revert m. induction xs as [|x xs IH]; intros m Hm Hin.
  - by apply elem_of_nil in Hin.
  - unfold Math_max in *. rewrite foldr_cons in Hm.
    destruct (foldr num_max NegInfinity xs) as [| |y|] eqn:E.
    + by destruct x.
    + destruct x as [| |x|]; try done. cbn in Hm. injection Hm as <-.
      apply elem_of_cons in Hin as [[= ->]|Hin]; [lia|].
      clear IH. exfalso. revert E Hin. clear.
      induction xs as [|x' xs IH]; [by intros _ ?%elem_of_nil|].
      rewrite foldr_cons. intros E [<-|Hin]%elem_of_cons.
      * by destruct (foldr num_max NegInfinity xs).
      * apply IH; [|done].
        destruct x', (foldr num_max NegInfinity xs); by cbn in E.
    + destruct x as [| |x|]; try done; cbn in Hm; injection Hm as <-.
      * apply elem_of_cons in Hin as [[=]|Hin]. by apply IH.
      * apply elem_of_cons in Hin as [[= ->]|Hin]; [lia|].
        specialize (IH y eq_refl Hin). lia.
    + by destruct x.
Qed.

Lemma Math_max_converted items m :
  converted_max items m → Math_max (key_numbers items) = Int m.
Proof.
  intros [(w & Hw & Hwm) Hall].
  assert (∀ l : list record,
            (∀ item, item ∈ l →
                     ∃ z, Number StringToNumber (prop item primaryKey) = Int z
                          ∧ z ≤ m) →
            Math_max (key_numbers l) = NegInfinity ∨
            ∃ z, Math_max (key_numbers l) = Int z ∧ z ≤ m) as Hbelow.
  { induction l as [|item l IH]; intros Hl; [by left|]. right.
    change (key_numbers (item :: l))
      with (Number StringToNumber (prop item primaryKey) :: key_numbers l).
    unfold Math_max in *. rewrite foldr_cons.
    destruct (Hl item ltac:(by left)) as (z & -> & Hz).
    destruct IH as [->|(y & -> & Hy)].
    - intros i Hi. apply Hl. by right.
    - by exists z.
    - exists (Z.max z y). split; [done|lia]. }
  destruct (Hbelow items Hall) as [Hneg|(z & Hz & Hle)].
  - exfalso. apply list_elem_of_split in Hw as (l1 & l2 & ->).
    revert Hneg. rewrite fmap_app, fmap_cons, Hwm. unfold Math_max.
    rewrite foldr_app. cbn [foldr].
    generalize (foldr num_max NegInfinity (key_numbers l2)). intros acc.
    induction (key_numbers l1) as [|x l IH]; cbn [foldr].
    + by destruct acc.
    + destruct x, (foldr num_max (num_max (Int m) acc) l); by cbn.
  - rewrite Hz. do 2 f_equal.
    assert (m ≤ z); [|lia].
    apply (Math_max_int_bound (key_numbers items)); [done|].
    rewrite <- Hwm.
    by apply (list_elem_of_fmap_2
                (λ i : record, Number StringToNumber (prop i primaryKey))).
Qed.

Lemma create_numeric items fields :
  safe_keys items →
  ∃ newId newItem,
    create items fields = (newItem, items ++ [newItem]) ∧
    newItem = <[primaryKey := VNum (Int newId)]> fields ∧
    newItem !! primaryKey = Some (VNum (Int newId)) ∧
    (∀ k, k ≠ primaryKey → newItem !! k = fields !! k) ∧
    (items = [] → newId = 1) ∧
    (items ≠ [] → is_max_id items (newId - 1)).
Proof.
  intros Hsafe. rewrite create_unfold.
  destruct items as [|item0 items0].
  - exists 1, (<[primaryKey := VNum (Int 1)]> fields). cbn.
    split_and!; try done.
    + apply lookup_insert_eq.
    + intros k Hk. by apply lookup_insert_ne.
  - destruct (Math_max_numeric _ (keys_below_numeric _ _ Hsafe))
      as (m & Hm & Hmax); [done|].
    exists (m + 1), (<[primaryKey := VNum (Int (m + 1))]> fields).
    cbv zeta. rewrite Hm.
    rewrite (num_add_succ m) by exact (keys_below_max _ _ _ Hsafe Hmax).
    split_and!; try done.
    + apply lookup_insert_eq.
    + intros k Hk. by apply lookup_insert_ne.
    + intros _. by replace (m + 1 - 1) with m by lia.
Qed.

(** C1, as amended.  On an array whose keys are numbers, [create] assigns 1
    when the array is empty and otherwise the largest key plus 1 as doubles
    add, which is one more than the largest key when that is a safe
    integer; the new record is the supplied fields with the id under the
    primary key, it is appended at the end, and it is the returned value. *)
Theorem create_assigns_next_id items fields :
  number_keys items →
  ∃ newId newItem,
    create items fields = (newItem, items ++ [newItem]) ∧
    newItem = <[primaryKey := VNum newId]> fields ∧
    newItem !! primaryKey = Some (VNum newId) ∧
    (∀ k, k ≠ primaryKey → newItem !! k = fields !! k) ∧
    (items = [] → newId = Int 1) ∧
    (items ≠ [] →
     ∃ maxId,
       is_largest_key items maxId ∧
       newId = num_add maxId (Int 1) ∧
       ∀ m, maxId = Int m → safe m → newId = Int (m + 1)).
Proof.
  intros Hnum. rewrite create_unfold. cbv zeta.
  eexists _, _. split; [reflexivity|].
  split_and!; try done.
  - apply lookup_insert_eq.
  - intros k Hk. by apply lookup_insert_ne.
  - by intros ->.
  - intros Hne. exists (Math_max (key_numbers items)).
    destruct items as [|item0 items0]; [done|].
    split_and!; [by apply Math_max_number_keys|done|].
    intros m -> Hsafe. by apply num_add_succ.
Qed.

(** *** Lookup by id *)

Lemma id_exists_first_match items id :
  id_exists items id ↔ ∃ index old, first_match (has_id id) items index old.
Proof.
  split.
  - intros (item & Hin & Hid).
    destruct (list_find_elem_of (has_id id) items item Hin Hid) as [[i x] Hf].
    exists i, x. exact (proj1 (list_find_Some _ _ _ _) Hf).
  - intros (index & old & Hl & Hid & _). exists old.
    split; [by eapply list_elem_of_lookup_2|done].
Qed.

Lemma no_id_Forall items id :
  ¬ id_exists items id ↔ Forall (λ item, ¬ has_id id item) items.
Proof.
  rewrite Forall_forall. split.
  - intros Hno item Hin Hid. apply Hno. by exists item.
  - intros Hall (item & Hin & Hid). by apply (Hall item).
Qed.

Lemma update_found items id updates index old :
  first_match (has_id id) items index old →
  update items id updates =
    (Some (updates ∪ old), <[index := updates ∪ old]> items).
Proof.
  intros Hfm. unfold generateCrudService.update.
  assert (findIndex (has_id id) items = Some index) as Hfi
    by (apply findIndex_Some; eauto).
  unfold has_id in Hfi. rewrite Hfi.
  destruct Hfm as (Hl & _ & _).
  rewrite (list_lookup_total_correct _ _ _ Hl).
  cbv zeta. f_equal. f_equal.
  apply list_lookup_total_correct, list_lookup_insert_eq.
  by eapply lookup_lt_Some.
Qed.

Lemma delete_missing items id :
  ¬ id_exists items id → delete items id = (false, items).
Proof.
  intros Hno%no_id_Forall. unfold generateCrudService.delete. cbv zeta.
  rewrite filter_all, bool_decide_eq_true_2; [done..|].
  eapply Forall_impl; [exact Hno|]. by intros item Hitem.
Qed.

(** C7.  When no record has the id, [getById] and [update] return absence
    and [delete] returns false, and each leaves the array as it was.  The
    three are total functions: there is no exceptional outcome. *)
Theorem missing_id_is_reported_not_raised items id updates :
  ¬ id_exists items id →
  getById items id = (None, items) ∧
  update items id updates = (None, items) ∧
  delete items id = (false, items).
Proof.
  intros Hno. split_and!.
  - unfold generateCrudService.getById. f_equal.
    by apply find_None, no_id_Forall.
  - unfold generateCrudService.update.
    by rewrite (proj2 (findIndex_None _ _) (proj1 (no_id_Forall _ _) Hno)).
  - by apply delete_missing.
Qed.

(** C8.  [getById] returns the first record, in array order, whose key is
    strictly equal to the id, and absence exactly when no record has such a
    key; a string id matches no numeric key; the array is not changed. *)
Theorem getById_first_strict_match items id :
  (∀ item, (getById items id).1 = Some item ↔
           ∃ index, first_match (has_id id) items index item) ∧
  ((getById items id).1 = None ↔ ¬ id_exists items id) ∧
  (∀ s, Forall (λ item, ∃ k, prop item primaryKey = VNum k) items →
        (getById items (VStr s)).1 = None) ∧
  (getById items id).2 = items.
Proof.
  split_and!.
  - intros item. apply find_Some.
  - rewrite no_id_Forall. apply find_None.
  - intros s Hnum. apply find_None.
    eapply Forall_impl; [exact Hnum|].
    intros item [k Hk]. rewrite Hk. apply strict_equal_num_str.
  - done.
Qed.

(** C5.  For an id that exists, [update] returns the first record with that
    id overlaid with the partial fields: a field of the partial fields has
    the value given there, every other field keeps its old value.  That
    record replaces the old one at its index; the length, the other records
    and their positions are unchanged. *)
Theorem update_merges_and_frames items id partialFields :
  id_exists items id →
  ∃ index old merged,
    first_match (has_id id) items index old ∧
    update items id partialFields = (Some merged, <[index := merged]> items) ∧
    (∀ k v, partialFields !! k = Some v → merged !! k = Some v) ∧
    (∀ k, partialFields !! k = None → merged !! k = old !! k) ∧
    length (update items id partialFields).2 = length items ∧
    (update items id partialFields).2 !! index = Some merged ∧
    (∀ j, j ≠ index →
          (update items id partialFields).2 !! j = items !! j).
Proof.
  intros (index & old & Hfm)%id_exists_first_match.
  exists index, old, (partialFields ∪ old).
  rewrite (update_found _ _ _ _ _ Hfm). cbn [snd].
  split_and!; try done.
  - intros k v Hk. by apply lookup_union_Some_l.
  - intros k Hk. by apply lookup_union_r.
  - apply length_insert.
  - apply list_lookup_insert_eq. destruct Hfm as (Hl & _).
    by eapply lookup_lt_Some.
  - intros j Hj. by apply list_lookup_insert_ne.
Qed.

(** *** Removal *)

Lemma delete_found items id :
  id_exists items id →
  delete items id = (true, filter (λ item, ¬ has_id id item) items).
Proof.
  intros (item & Hin & Hid). unfold generateCrudService.delete. cbv zeta.
  rewrite bool_decide_eq_false_2; [done|].
  assert (¬ ¬ has_id id item) as Hnn by (intros Hn; exact (Hn Hid)).
  pose proof (length_filter_lt (λ i, ¬ has_id id i) items item Hin Hnn) as Hlt.
  intros Heq. unfold has_id in Hlt. rewrite Heq in Hlt.
  exact (Nat.lt_irrefl _ Hlt).
Qed.

Lemma key_of_has_id id item : has_id id item → prop item primaryKey = id.
Proof. apply strict_equal_eq. Qed.

Lemma distinct_keys_split before item after id :
  keys_distinct (before ++ item :: after) → has_id id item →
  Forall (λ i, ¬ has_id id i) before ∧ Forall (λ i, ¬ has_id id i) after.
Proof.
  unfold keys_distinct, keys. rewrite fmap_app, fmap_cons.
  intros (_ & Hdisj & (Hafter & _)%NoDup_cons)%NoDup_app Hid.
  apply key_of_has_id in Hid.
  split; apply Forall_forall; intros i Hi Hi'%key_of_has_id.
  - apply (Hdisj (prop i primaryKey)).
    + by apply (list_elem_of_fmap_2 (λ r : record, prop r primaryKey)).
    + rewrite Hi', <- Hid. by left.
  - apply Hafter. rewrite Hid, <- Hi'.
    by apply (list_elem_of_fmap_2 (λ r : record, prop r primaryKey)).
Qed.

(** C4, as amended.  On an array whose keys are pairwise distinct, [delete]
    of an id that exists removes the one record with that id, so that the
    length drops by exactly one, and returns true; [delete] of an id that no
    record has leaves the array as it is and returns false. *)
Theorem delete_removes_the_record items id :
  keys_distinct items →
  (id_exists items id →
     ∃ before item after,
       items = before ++ item :: after ∧ has_id id item ∧
       delete items id = (true, before ++ after) ∧
       S (length (delete items id).2) = length items) ∧
  (¬ id_exists items id →
     delete items id = (false, items) ∧
     length (delete items id).2 = length items).
Proof.
  intros Hdist. split.
  - intros Hex. rewrite (delete_found _ _ Hex).
    destruct Hex as (item & Hin & Hid).
    destruct (list_elem_of_split _ _ Hin) as (before & after & ->).
    destruct (distinct_keys_split _ _ _ _ Hdist Hid) as [Hb Ha].
    exists before, item, after.
    assert (filter (λ i, ¬ has_id id i) (before ++ item :: after)
            = before ++ after) as ->.
    { rewrite filter_app, filter_cons_False by (intros Hn; exact (Hn Hid)).
      by rewrite !filter_all. }
    split_and!; try done. cbn [snd]. rewrite !length_app. cbn. lia.
  - intros Hno.
    by rewrite (delete_missing _ _ Hno).
Qed.

Lemma has_id_iff id item :
  id ≠ VNum NaN → has_id id item ↔ prop item primaryKey = id.
Proof.
  intros Hid. split; [apply key_of_has_id|].
  intros Hk. split; [done|]. by rewrite Hk.
Qed.

Lemma no_id_not_key items id :
  id ≠ VNum NaN →
  Forall (λ item, ¬ has_id id item) items ↔ id ∉ keys items.
Proof.
  intros Hid. rewrite Forall_forall. split.
  - intros Hno (item & -> & Hin)%list_elem_of_fmap.
    apply (Hno item Hin). by apply has_id_iff.
  - intros Hfresh item Hin Hitem%key_of_has_id. apply Hfresh.
    rewrite <- Hitem.
    by apply (list_elem_of_fmap_2 (λ r : record, prop r primaryKey)).
Qed.

Lemma delete_created items (item : record) :
  prop item primaryKey ≠ VNum NaN →
  delete (items ++ [item]) (prop item primaryKey)
    = (true, filter (λ i, ¬ has_id (prop item primaryKey) i) items).
Proof.
  intros Hid.
  assert (has_id (prop item primaryKey) item) as Hitem by (by split).
  rewrite delete_found.
  - rewrite filter_app.
    rewrite (filter_cons_False _ item) by (intros Hn; exact (Hn Hitem)).
    by rewrite filter_nil, app_nil_r.
  - exists item. split; [|done]. apply elem_of_app. right. by left.
Qed.

Lemma create_fresh_if_safe items fields :
  safe_keys items →
  prop (create items fields).1 primaryKey ≠ VNum NaN ∧
  prop (create items fields).1 primaryKey ∉ keys items.
Proof.
  intros Hsafe.
  destruct (create_numeric items fields Hsafe)
    as (newId & newItem & -> & -> & Hk & _ & _ & Hmax).
  cbn [fst]. rewrite prop_insert_eq. split; [done|].
  intros (item & Hitem & Hin)%list_elem_of_fmap.
  destruct items as [|item0 items0]; [by apply elem_of_nil in Hin|].
  destruct Hmax as [_ Hle]; [done|].
  specialize (Hle item newId Hin (eq_sym Hitem)). lia.
Qed.

(** C6, as amended.  [create] followed by [delete] of the id of the record
    [create] returned gives back the array as it was before exactly when
    the id that [create] assigned is not NaN and was the key of no record.
    So it is on every array whose keys are safe integers, and [getAll] then
    returns the records that were there before, in their order. *)
Theorem create_then_delete_restores items fields :
  (prop (create items fields).1 primaryKey ≠ VNum NaN ∧
   prop (create items fields).1 primaryKey ∉ keys items ↔
   delete (create items fields).2 (prop (create items fields).1 primaryKey)
     = (true, items)) ∧
  (safe_keys items →
   ∃ newItem items1,
     create items fields = (newItem, items1) ∧
     delete items1 (prop newItem primaryKey) = (true, items) ∧
     (getAll (delete items1 (prop newItem primaryKey)).2).1 = items).
Proof.
  assert (prop (create items fields).1 primaryKey ≠ VNum NaN →
          prop (create items fields).1 primaryKey ∉ keys items →
          delete (create items fields).2
                 (prop (create items fields).1 primaryKey) = (true, items))
    as Hrestore.
  { rewrite create_unfold. cbv zeta. cbn [fst snd].
    intros Hid Hfresh. rewrite (delete_created _ _ Hid).
    f_equal. apply filter_all. by apply no_id_not_key. }
  split.
  - split; [by intros [??]; apply Hrestore|].
    rewrite create_unfold. cbv zeta. cbn [fst snd].
    set (newItem := <[primaryKey := _]> fields). intros Hd.
    assert (prop newItem primaryKey ≠ VNum NaN) as Hid.
    { intros Hnan. rewrite Hnan, delete_missing in Hd; [done|].
      intros (i & _ & Hi). exact (strict_equal_NaN_r _ Hi). }
    split; [done|]. apply no_id_not_key; [done|].
    rewrite (delete_created _ _ Hid) in Hd. injection Hd as Hd.
    apply (filter_length_eq (λ i, ¬ has_id (prop newItem primaryKey) i)).
    by rewrite Hd.
  - intros Hsafe. destruct (create_fresh_if_safe items fields Hsafe) as [Hid Hf].
    specialize (Hrestore Hid Hf).
    destruct (create items fields) as [newItem items1].
    exists newItem, items1. cbn [fst snd] in Hrestore.
    split; [done|]. by rewrite Hrestore.
Qed.

(** *** The primary key under update *)

Lemma keys_insert items index (item : record) :
  keys (<[index := item]> items) = <[index := prop item primaryKey]> (keys items).
Proof.
  exact (list_fmap_insert (λ r : record, prop r primaryKey) items index item).
Qed.

Lemma prop_union_Some (updates old : record) k v :
  updates !! k = Some v → prop (updates ∪ old) k = v.
Proof. intros Hk. unfold prop. by rewrite (lookup_union_Some_l _ _ _ _ Hk). Qed.

Lemma prop_union_None (updates old : record) k :
  updates !! k = None → prop (updates ∪ old) k = prop old k.
Proof. intros Hk. unfold prop. by rewrite (lookup_union_r _ _ _ Hk). Qed.

(** C10.  When the partial fields carry the primary-key field with value
    [v], the record that [update] stores has key [v]; if [v] is not
    strictly equal to the id and no other record has the id, [getById] of
    the id on the updated array returns absence. *)
Theorem update_overwrites_primary_key items id partialFields v :
  id_exists items id →
  partialFields !! primaryKey = Some v →
  ∃ index old stored,
    first_match (has_id id) items index old ∧
    update items id partialFields = (Some stored, <[index := stored]> items) ∧
    (update items id partialFields).2 !! index = Some stored ∧
    prop stored primaryKey = v ∧
    (¬ strict_equal v id →
     (∀ j item, items !! j = Some item → j ≠ index → ¬ has_id id item) →
     (getById (update items id partialFields).2 id).1 = None).
Proof.
  intros (index & old & Hfm)%id_exists_first_match Hv.
  exists index, old, (partialFields ∪ old).
  rewrite (update_found _ _ _ _ _ Hfm). cbn [snd].
  pose proof (prop_union_Some partialFields old _ _ Hv) as Hp.
  split_and!; try done.
  - apply list_lookup_insert_eq. destruct Hfm as (Hl & _).
    by eapply lookup_lt_Some.
  - intros Hne Hothers. apply find_None, Forall_lookup.
    intros j item [(<- & <- & _)|(Hj & Hitem)]%list_lookup_insert_Some.
    + by rewrite Hp.
    + by apply (Hothers j item).
Qed.

(** *** Distinct primary keys *)

Lemma create_distinct_iff items fields :
  keys_distinct items →
  keys_distinct (create items fields).2 ↔
  prop (create items fields).1 primaryKey ∉ keys items.
Proof.
  intros Hdist. rewrite create_unfold. cbv zeta. cbn [fst snd].
  unfold keys_distinct, keys. rewrite fmap_app, NoDup_app.
  cbn [fmap list_fmap]. split.
  - intros (_ & Hdisj & _) Hin. apply (Hdisj _ Hin). by left.
  - intros Hfresh. split_and!; [done| |apply NoDup_singleton].
    by intros k Hk ->%list_elem_of_singleton.
Qed.

Lemma create_fresh_if_converted items fields m :
  converted_max items m → safe m →
  prop (create items fields).1 primaryKey ∉ keys items.
Proof.
  intros Hmax Hsafe. rewrite create_unfold. cbv zeta. cbn [fst].
  destruct items as [|item0 items0].
  { intros Hin. by apply elem_of_nil in Hin. }
  rewrite (Math_max_converted _ _ Hmax), (num_add_succ _ Hsafe).
  rewrite prop_insert_eq.
  intros (item & Hitem & Hin)%list_elem_of_fmap.
  destruct Hmax as [_ Hall].
  destruct (Hall item Hin) as (z & Hz & Hle).
  rewrite <- Hitem in Hz. cbn in Hz. injection Hz as <-. lia.
Qed.

Lemma create_keeps_keys_distinct items fields :
  keys_distinct items → safe_keys items →
  keys_distinct (create items fields).2.
Proof.
  intros Hdist Hsafe. apply create_distinct_iff; [done|].
  by apply create_fresh_if_safe.
Qed.

Lemma delete_keeps_keys_distinct items id :
  keys_distinct items → keys_distinct (delete items id).2.
Proof.
  intros Hdist. unfold generateCrudService.delete. cbv zeta.
  case_bool_decide; [done|]. cbn.
  eapply sublist_NoDup; [exact Hdist|].
  unfold keys. apply fmap_sublist, sublist_filter.
Qed.

Lemma update_keeps_keys_distinct items id partialFields :
  keys_distinct items →
  (∀ v, partialFields !! primaryKey = Some v →
        strict_equal v id ∨ v ∉ keys items) →
  keys_distinct (update items id partialFields).2.
Proof.
  intros Hdist Hkey.
  destruct (findIndex (has_id id) items) as [index|] eqn:E.
  - apply findIndex_Some in E as [old Hfm].
    rewrite (update_found _ _ _ _ _ Hfm). cbn [snd].
    unfold keys_distinct. rewrite keys_insert.
    destruct Hfm as (Hl & Hid%key_of_has_id & _).
    assert (keys items !! index = Some id) as Hkl.
    { unfold keys. by rewrite list_lookup_fmap, Hl, <- Hid. }
    destruct (partialFields !! primaryKey) as [v|] eqn:Hv.
    + rewrite (prop_union_Some _ _ _ _ Hv).
      destruct (Hkey v eq_refl) as [->%strict_equal_eq|Hfresh].
      * by rewrite list_insert_id.
      * by apply NoDup_insert_fresh.
    + rewrite (prop_union_None _ _ _ Hv), Hid. by rewrite list_insert_id.
  - unfold generateCrudService.update. unfold has_id in E. by rewrite E.
Qed.

(** C2, as amended.  Starting from an array whose keys are pairwise
    distinct: [delete] keeps them distinct; [create] keeps them distinct
    exactly when the id it assigns is the key of no record, as it is when
    the keys, converted to numbers, are integers whose largest is a safe
    integer; [update] keeps them distinct when the partial fields do not
    carry the primary-key field, or carry it with the id itself or with a
    value that is no record's key. *)
Theorem crud_preserves_distinct_keys items :
  keys_distinct items →
  (∀ fields,
     keys_distinct (create items fields).2 ↔
     prop (create items fields).1 primaryKey ∉ keys items) ∧
  (∀ fields m,
     converted_max items m → safe m →
     keys_distinct (create items fields).2) ∧
  (∀ id, keys_distinct (delete items id).2) ∧
  (∀ id partialFields,
     (∀ v, partialFields !! primaryKey = Some v →
           strict_equal v id ∨ v ∉ keys items) →
     keys_distinct (update items id partialFields).2).
Proof.
  intros Hdist. split_and!.
  - intros fields. by apply create_distinct_iff.
  - intros fields m Hmax Hsafe. apply create_distinct_iff; [done|].
    by apply (create_fresh_if_converted _ _ m).
  - intros id. by apply delete_keeps_keys_distinct.
  - intros id partialFields. by apply update_keeps_keys_distinct.
Qed.

End Contract.

(** ** Relationship queries *)

Lemma find_head_filter {A} (P : A → Prop) `{∀ x, Decision (P x)} xs :
  find P xs = head (filter P xs).
Proof.
  unfold find. induction xs as [|x xs IH]; [done|].
  cbn [list_find]. destruct (decide (P x)) as [HP|HP].
  - by rewrite filter_cons_True.
  - rewrite filter_cons_False by done. rewrite <- IH.
    by destruct (list_find P xs) as [[i y]|].
Qed.

(** C3, as amended.  Each of the eight queries that return an array returns
    all the records of its array whose foreign key is strictly equal to the
    parent id, in the order of the array.  [getCustomerTier] returns one
    record, the first of those, or absence when there is none. *)
Theorem relationship_queries_select_children s id :
  selected (λ r, strict_equal (prop r "B_ID") (VNum id))
    (offers s) (getBusinessOffers s id) ∧
  selected (λ r, strict_equal (prop r "B_ID") (VNum id))
    (feedbacks s) (getBusinessFeedback s id) ∧
  selected (λ r, strict_equal (prop r "B_ID") (VNum id))
    (analytics s) (getBusinessAnalytics s id) ∧
  selected (λ r, strict_equal (prop r "C_ID") (VNum id))
    (transactions s) (getCustomerTransactions s id) ∧
  selected (λ r, strict_equal (prop r "Referred_C_id") (VNum id))
    (referralPrograms s) (getCustomerReferrals s id) ∧
  selected (λ r, strict_equal (prop r "C_ID") (VNum id))
    (feedbacks s) (getCustomerFeedback s id) ∧
  selected (λ r, strict_equal (prop r "C_ID") (VNum id))
    (fraudDetections s) (getCustomerFraudDetections s id) ∧
  selected (λ r, strict_equal (prop r "T_ID") (VNum id))
    (redemptions s) (getTransactionRedemptions s id) ∧
  (∀ children,
     selected (λ r, strict_equal (prop r "C_ID") (VNum id))
       (customerTiers s) children →
     getCustomerTier s id = head children).
Proof.
  split_and!; try apply filter_selected.
  intros children Hsel. unfold getCustomerTier.
  rewrite find_head_filter. f_equal.
  eapply selected_unique; [apply filter_selected|exact Hsel].
Qed.

(** C3 fails as stated: after a second enrolment of customer 1 is created,
    [getCustomerTier] returns one of the two enrolments of that customer. *)
Lemma getCustomerTier_returns_one_of_two :
  let s := (customerTierService_create anyStringToNumber initialStore secondTier).2 in
  ¬ selected (λ r, strict_equal (prop r "C_ID") (n 1))
      (customerTiers s) (option_list (getCustomerTier s (Int 1))).
Proof.
  intros s Hsel.
  pose proof (selected_unique _ _ _ _ (filter_selected _ _) Hsel) as Heq.
  apply (f_equal length) in Heq. vm_compute in Heq. discriminate.
Qed.

(** ** Reuse of ids *)

Lemma initial_transactions_max : is_max_id "T_ID" (transactions initialStore) 3.
Proof.
  split.
  - eexists. split; [do 2 right; left|reflexivity].
  - intros item z Hin Hz. cbn in Hin.
    repeat (apply elem_of_cons in Hin as [->|Hin]);
      [vm_compute in Hz; injection Hz as <-; lia..|].
    by apply elem_of_nil in Hin.
Qed.

Lemma create_id_from_max StringToNumber primaryKey items fields m :
  numeric_keys primaryKey items → is_max_id primaryKey items m →
  prop (generateCrudService.create StringToNumber primaryKey items fields).1
    primaryKey = VNum (num_add (Int m) (Int 1)).
Proof.
  intros Hnum [[w [Hw Hwm]] Hle].
  rewrite create_unfold. cbv zeta. cbn [fst]. rewrite prop_insert_eq.
  destruct items as [|item0 items0]; [by apply elem_of_nil in Hw|].
  destruct (Math_max_numeric StringToNumber primaryKey _ Hnum)
    as (m' & -> & [[w' [Hw' Hwm']] Hle']); [done|].
  specialize (Hle w' _ Hw' Hwm'). specialize (Hle' w _ Hw Hwm).
  by replace m' with m by lia.
Qed.


(** ** Where the contract stops *)

(** C2 fails as stated, twice.  The initial businesses have distinct keys,
    and [update] of business 1 with partial fields that carry [B_ID: 2]
    leaves two records with key 2.  The array of one business with key 2^53
    has distinct keys, and [create] on it assigns 2^53 again. *)
Lemma distinct_keys_can_be_lost :
  (keys_distinct "B_ID" (businesses initialStore) ∧
   ¬ keys_distinct "B_ID"
       (generateCrudService.update "B_ID" (businesses initialStore) (n 1)
          rekeyBusiness).2) ∧
  (keys_distinct "B_ID" [hugeBusiness] ∧
   ¬ keys_distinct "B_ID"
       (generateCrudService.create anyStringToNumber "B_ID" [hugeBusiness]
          newBusiness).2).
Proof.
  unfold keys_distinct. split; split.
  - apply (bool_decide_unpack _). vm_compute. exact I.
  - intros H. apply (bool_decide_pack _) in H. vm_compute in H. exact H.
  - apply (bool_decide_unpack _). vm_compute. exact I.
  - intros H. apply (bool_decide_pack _) in H. vm_compute in H. exact H.
Qed.

(** C1 fails as stated: on one business with key 2^53, a number and the
    largest key, [create] assigns 2^53, not 2^53 + 1. *)
Lemma create_rounds_at_2_53 :
  number_keys "B_ID" [hugeBusiness] ∧
  is_max_id "B_ID" [hugeBusiness] 9007199254740992 ∧
  prop (generateCrudService.create anyStringToNumber "B_ID" [hugeBusiness]
          newBusiness).1 "B_ID" = n 9007199254740992 ∧
  prop (generateCrudService.create anyStringToNumber "B_ID" [hugeBusiness]
          newBusiness).1 "B_ID" ≠ n (9007199254740992 + 1).
Proof.
  split_and!.
  - constructor; [by eexists|constructor].
  - split.
    + exists hugeBusiness. split; [by left|reflexivity].
    + intros item z ->%list_elem_of_singleton Hz.
      vm_compute in Hz. injection Hz as <-. lia.
  - vm_compute. reflexivity.
  - vm_compute. discriminate.
Qed.

(** C6 fails as stated: on one business with key 2^53, and on one with key
    Infinity, [create] assigns the key that is there, and [delete] of the
    id of the created record removes both records: [getAll] then returns
    the empty array, not the business that was there before. *)
Lemma create_then_delete_can_empty :
  (number_keys "B_ID" [hugeBusiness] ∧
   generateCrudService.delete "B_ID"
     (generateCrudService.create anyStringToNumber "B_ID" [hugeBusiness]
        newBusiness).2
     (prop (generateCrudService.create anyStringToNumber "B_ID"
              [hugeBusiness] newBusiness).1 "B_ID")
     = (true, []) ∧
   (generateCrudService.getAll
      (generateCrudService.delete "B_ID"
         (generateCrudService.create anyStringToNumber "B_ID" [hugeBusiness]
            newBusiness).2
         (prop (generateCrudService.create anyStringToNumber "B_ID"
                  [hugeBusiness] newBusiness).1 "B_ID")).2).1
     ≠ [hugeBusiness]) ∧
  (number_keys "B_ID" [endlessBusiness] ∧
   generateCrudService.delete "B_ID"
     (generateCrudService.create anyStringToNumber "B_ID" [endlessBusiness]
        newBusiness).2
     (prop (generateCrudService.create anyStringToNumber "B_ID"
              [endlessBusiness] newBusiness).1 "B_ID")
     = (true, []) ∧
   (generateCrudService.getAll
      (generateCrudService.delete "B_ID"
         (generateCrudService.create anyStringToNumber "B_ID"
            [endlessBusiness] newBusiness).2
         (prop (generateCrudService.create anyStringToNumber "B_ID"
                  [endlessBusiness] newBusiness).1 "B_ID")).2).1
     ≠ [endlessBusiness]).
Proof.
  split; split_and!.
  - constructor; [by eexists|constructor].
  - vm_compute. reflexivity.
  - intros H. vm_compute in H. discriminate H.
  - constructor; [by eexists|constructor].
  - vm_compute. reflexivity.
  - intros H. vm_compute in H. discriminate H.
Qed.

(** C4 fails as stated: on the array left by that update two records have
    key 2, and [delete] of 2 removes both. *)
Lemma delete_can_remove_two_records :
  let items :=
    (generateCrudService.update "B_ID" (businesses initialStore) (n 1)
       rekeyBusiness).2 in
  id_exists "B_ID" items (n 2) ∧
  length items = 3%nat ∧
  generateCrudService.delete "B_ID" items (n 2)
    = (true, [ (businesses initialStore) !!! 2%nat ]) ∧
  S (length (generateCrudService.delete "B_ID" items (n 2)).2) ≠ length items.
Proof.
  intros items. split_and!.
  - eexists. split; [left|]. by apply strict_equal_int.
  - reflexivity.
  - vm_compute. reflexivity.
  - vm_compute. discriminate.
Qed.

(** ** The contract at the initial businesses *)

Lemma create_assigns_next_id_witness :
  number_keys "B_ID" (businesses initialStore) ∧
  ∃ newId newItem,
    generateCrudService.create anyStringToNumber "B_ID"
      (businesses initialStore) newBusiness
      = (newItem, businesses initialStore ++ [newItem]) ∧
    newItem = <["B_ID" := VNum newId]> newBusiness ∧
    newItem !! "B_ID" = Some (VNum newId) ∧
    (∀ k, k ≠ "B_ID" → newItem !! k = newBusiness !! k) ∧
    (businesses initialStore = [] → newId = Int 1) ∧
    (businesses initialStore ≠ [] →
     ∃ maxId,
       is_largest_key "B_ID" (businesses initialStore) maxId ∧
       newId = num_add maxId (Int 1) ∧
       ∀ m, maxId = Int m → safe m → newId = Int (m + 1)).
Proof.
  assert (number_keys "B_ID" (businesses initialStore)) as Hnum
    by (repeat constructor; eexists; reflexivity).
  split; [exact Hnum|].
  exact (create_assigns_next_id anyStringToNumber "B_ID"
           (businesses initialStore) newBusiness Hnum).
Defined.

Lemma crud_preserves_distinct_keys_witness :
  keys_distinct "B_ID" stringKeyed ∧
  (∀ fields,
     keys_distinct "B_ID"
       (generateCrudService.create digitToNumber "B_ID" stringKeyed fields).2 ↔
     prop (generateCrudService.create digitToNumber "B_ID" stringKeyed
             fields).1 "B_ID" ∉ keys "B_ID" stringKeyed) ∧
  (∀ fields m,
     converted_max digitToNumber "B_ID" stringKeyed m → safe m →
     keys_distinct "B_ID"
       (generateCrudService.create digitToNumber "B_ID" stringKeyed fields).2) ∧
  (∀ id, keys_distinct "B_ID"
           (generateCrudService.delete "B_ID" stringKeyed id).2) ∧
  (∀ id partialFields,
     (∀ v, partialFields !! "B_ID" = Some v →
           strict_equal v id ∨ v ∉ keys "B_ID" stringKeyed) →
     keys_distinct "B_ID"
       (generateCrudService.update "B_ID" stringKeyed id partialFields).2).
Proof.
  assert (keys_distinct "B_ID" stringKeyed) as Hdist
    by (unfold keys_distinct; apply (bool_decide_unpack _); vm_compute; exact I).
  split; [exact Hdist|].
  exact (crud_preserves_distinct_keys digitToNumber "B_ID" stringKeyed Hdist).
Defined.

Lemma delete_removes_the_record_witness :
  keys_distinct "B_ID" (businesses initialStore) ∧
  (id_exists "B_ID" (businesses initialStore) (n 2) →
     ∃ before item after,
       businesses initialStore = before ++ item :: after ∧
       has_id "B_ID" (n 2) item ∧
       generateCrudService.delete "B_ID" (businesses initialStore) (n 2)
         = (true, before ++ after) ∧
       S (length (generateCrudService.delete "B_ID"
                    (businesses initialStore) (n 2)).2)
         = length (businesses initialStore)) ∧
  (¬ id_exists "B_ID" (businesses initialStore) (n 2) →
     generateCrudService.delete "B_ID" (businesses initialStore) (n 2)
       = (false, businesses initialStore) ∧
     length (generateCrudService.delete "B_ID"
               (businesses initialStore) (n 2)).2
       = length (businesses initialStore)).
Proof.
  assert (keys_distinct "B_ID" (businesses initialStore)) as Hdist
    by (unfold keys_distinct; apply (bool_decide_unpack _); vm_compute; exact I).
  split; [exact Hdist|].
  exact (delete_removes_the_record "B_ID" (businesses initialStore) (n 2) Hdist).
Defined.

Lemma update_merges_and_frames_witness :
  id_exists "B_ID" (businesses initialStore) (n 1) ∧
  ∃ index old merged,
    first_match (has_id "B_ID" (n 1)) (businesses initialStore) index old ∧
    generateCrudService.update "B_ID" (businesses initialStore) (n 1)
      renameBusiness
      = (Some merged, <[index := merged]> (businesses initialStore)) ∧
    (∀ k v, renameBusiness !! k = Some v → merged !! k = Some v) ∧
    (∀ k, renameBusiness !! k = None → merged !! k = old !! k) ∧
    length (generateCrudService.update "B_ID" (businesses initialStore) (n 1)
              renameBusiness).2 = length (businesses initialStore) ∧
    (generateCrudService.update "B_ID" (businesses initialStore) (n 1)
       renameBusiness).2 !! index = Some merged ∧
    (∀ j, j ≠ index →
          (generateCrudService.update "B_ID" (businesses initialStore) (n 1)
             renameBusiness).2 !! j = businesses initialStore !! j).
Proof.
  assert (id_exists "B_ID" (businesses initialStore) (n 1)) as Hex.
  { eexists. split; [left|]. by apply strict_equal_int. }
  split; [exact Hex|].
  exact (update_merges_and_frames "B_ID" (businesses initialStore) (n 1)
           renameBusiness Hex).
Defined.

Lemma create_then_delete_restores_witness :
  safe_keys "B_ID" (businesses initialStore) ∧
  ∃ newItem items1,
    generateCrudService.create anyStringToNumber "B_ID"
      (businesses initialStore) newBusiness = (newItem, items1) ∧
    generateCrudService.delete "B_ID" items1 (prop newItem "B_ID")
      = (true, businesses initialStore) ∧
    (generateCrudService.getAll
       (generateCrudService.delete "B_ID" items1 (prop newItem "B_ID")).2).1
      = businesses initialStore.
Proof.
  assert (safe_keys "B_ID" (businesses initialStore)) as Hsafe
    by (repeat constructor; eexists; (split; [reflexivity|lia])).
  split; [exact Hsafe|].
  exact (proj2 (create_then_delete_restores anyStringToNumber "B_ID"
                  (businesses initialStore) newBusiness) Hsafe).
Defined.

Lemma missing_id_is_reported_not_raised_witness :
  ¬ id_exists "B_ID" (businesses initialStore) (n 7) ∧
  generateCrudService.getById "B_ID" (businesses initialStore) (n 7)
    = (None, businesses initialStore) ∧
  generateCrudService.update "B_ID" (businesses initialStore) (n 7)
    renameBusiness = (None, businesses initialStore) ∧
  generateCrudService.delete "B_ID" (businesses initialStore) (n 7)
    = (false, businesses initialStore).
Proof.
  assert (¬ id_exists "B_ID" (businesses initialStore) (n 7)) as Hno.
  { apply no_id_Forall. apply (bool_decide_unpack _). vm_compute. exact I. }
  split; [exact Hno|].
  exact (missing_id_is_reported_not_raised "B_ID" (businesses initialStore)
           (n 7) renameBusiness Hno).
Defined.

Lemma update_overwrites_primary_key_witness :
  id_exists "B_ID" (businesses initialStore) (n 1) ∧
  rekeyBusiness !! "B_ID" = Some (n 2) ∧
  ∃ index old stored,
    first_match (has_id "B_ID" (n 1)) (businesses initialStore) index old ∧
    generateCrudService.update "B_ID" (businesses initialStore) (n 1)
      rekeyBusiness
      = (Some stored, <[index := stored]> (businesses initialStore)) ∧
    (generateCrudService.update "B_ID" (businesses initialStore) (n 1)
       rekeyBusiness).2 !! index = Some stored ∧
    prop stored "B_ID" = n 2 ∧
    (¬ strict_equal (n 2) (n 1) →
     (∀ j item, businesses initialStore !! j = Some item → j ≠ index →
                ¬ has_id "B_ID" (n 1) item) →
     (generateCrudService.getById "B_ID"
        (generateCrudService.update "B_ID" (businesses initialStore) (n 1)
           rekeyBusiness).2 (n 1)).1 = None).
Proof.
  assert (id_exists "B_ID" (businesses initialStore) (n 1)) as Hex.
  { eexists. split; [left|]. by apply strict_equal_int. }
  assert (rekeyBusiness !! "B_ID" = Some (n 2)) as Hv by reflexivity.
  split; [exact Hex|]. split; [exact Hv|].
  exact (update_overwrites_primary_key "B_ID" (businesses initialStore) (n 1)
           rekeyBusiness (n 2) Hex Hv).
Defined.

(** ** How the service calls compose *)

Lemma find_app {A} (P : A → Prop) `{∀ x, Decision (P x)} xs ys :
  find P (xs ++ ys) = match find P xs with
                      | Some x => Some x
                      | None => find P ys
                      end.
Proof.
  rewrite !find_head_filter, filter_app.
  by destruct (filter P xs).
Qed.

Lemma find_cons {A} (P : A → Prop) `{∀ x, Decision (P x)} x xs :
  find P (x :: xs) = if decide (P x) then Some x else find P xs.
Proof.
  rewrite !find_head_filter, filter_cons. by destruct (decide (P x)).
Qed.

Lemma find_filter {A} (P Q : A → Prop)
    `{∀ x, Decision (P x)} `{∀ x, Decision (Q x)} xs :
  (∀ x, P x → Q x) → find P (filter Q xs) = find P xs.
Proof.
  intros HPQ. rewrite !find_head_filter. f_equal.
  induction xs as [|x xs IH]; [done|].
  destruct (decide (Q x)) as [HQ|HQ].
  - rewrite (filter_cons_True Q) by done.
    destruct (decide (P x)) as [HP|HP].
    + rewrite !(filter_cons_True P) by done. by rewrite IH.
    + rewrite !(filter_cons_False P) by done. exact IH.
  - rewrite (filter_cons_False Q) by done.
    rewrite (filter_cons_False P); [exact IH|].
    intros HP. exact (HQ (HPQ x HP)).
Qed.

Lemma find_insert_other {A} (P : A → Prop) `{∀ x, Decision (P x)}
    xs i x y :
  xs !! i = Some x → ¬ P x → ¬ P y → find P (<[i := y]> xs) = find P xs.
Proof.
  intros Hx HPx HPy.
  rewrite insert_take_drop by (by eapply lookup_lt_Some).
  rewrite <- (take_drop_middle xs i x Hx) at 3.
  rewrite !find_app, !find_cons.
  by rewrite !decide_False by done.
Qed.

Lemma find_first_match {A} (P : A → Prop) `{∀ x, Decision (P x)} xs i x :
  first_match P xs i x → find P xs = Some x.
Proof. intros Hfm. apply find_Some. by exists i. Qed.

Lemma Math_max_NaN xs : NaN ∈ xs → Math_max xs = NaN.
Proof.
  induction xs as [|x xs IH]; [by intros ?%elem_of_nil|].
  intros [<-|Hin]%elem_of_cons; [done|].
  unfold Math_max in *. rewrite foldr_cons, (IH Hin). by destruct x.
Qed.

Lemma strict_equal_NaN v : ¬ strict_equal v (VNum NaN).
Proof. intros [-> Hne]. by apply Hne. Qed.

Section Compositions.

Variable StringToNumber : string → num.
Variable primaryKey : string.

Local Abbreviation getById := (generateCrudService.getById primaryKey).
Local Abbreviation create := (generateCrudService.create StringToNumber primaryKey).
Local Abbreviation update := (generateCrudService.update primaryKey).
Local Abbreviation delete := (generateCrudService.delete primaryKey).
Local Abbreviation has_id := (has_id primaryKey).
Local Abbreviation id_exists := (id_exists primaryKey).
Local Abbreviation numeric_keys := (numeric_keys primaryKey).
Local Abbreviation is_max_id := (is_max_id primaryKey).
Local Abbreviation keys_distinct := (keys_distinct primaryKey).
Local Abbreviation keys_below := (keys_below primaryKey).
Local Abbreviation safe_keys := (safe_keys primaryKey).

Lemma getById_find items id :
  getById items id = (find (has_id id) items, items).
Proof. reflexivity. Qed.

Lemma delete_cases items id :
  (¬ id_exists items id ∧ delete items id = (false, items)) ∨
  (id_exists items id ∧
   delete items id = (true, filter (λ item, ¬ has_id id item) items)).
Proof.
  destruct (find (has_id id) items) as [item|] eqn:E.
  - right. apply find_Some in E as (i & Hl & Hid & _).
    assert (id_exists items id) as Hex.
    { exists item. split; [by eapply list_elem_of_lookup_2|done]. }
    split; [done|]. by apply delete_found.
  - left. apply find_None, no_id_Forall in E. split; [done|].
    by apply delete_missing.
Qed.

Lemma no_id_after_filter items id :
  ¬ id_exists (filter (λ item, ¬ has_id id item) items) id.
Proof.
  intros (item & [Hno _]%list_elem_of_filter & Hid). exact (Hno Hid).
Qed.

(** X1.  After [delete] of an id no record has that id: [getById] of it
    returns absence and a second [delete] of it returns false and changes
    nothing.  This holds on every array, also with repeated keys. *)
Theorem delete_then_absent items id :
  ¬ id_exists (delete items id).2 id ∧
  getById (delete items id).2 id = (None, (delete items id).2) ∧
  delete (delete items id).2 id = (false, (delete items id).2).
Proof.
  assert (¬ id_exists (delete items id).2 id) as Hno.
  { destruct (delete_cases items id) as [[Hno ->]|[_ ->]]; [done|].
    apply no_id_after_filter. }
  split_and!; [done| |by apply delete_missing].
  rewrite getById_find. f_equal. by apply find_None, no_id_Forall.
Qed.

(** X2.  [delete] returns true exactly when some record has the id; the
    array it leaves is the old one without the records having the id, the
    others in their order; and its length and the number of records that
    had the id add up to the old length. *)
Theorem delete_removes_every_match items id :
  ((delete items id).1 = true ↔ id_exists items id) ∧
  selected (λ item, ¬ has_id id item) items (delete items id).2 ∧
  (length (delete items id).2 + length (filter (has_id id) items))%nat
    = length items.
Proof.
  assert ((delete items id).2 = filter (λ item, ¬ has_id id item) items)
    as Hafter.
  { destruct (delete_cases items id) as [[Hno ->]|[_ ->]]; [|done].
    cbn [snd]. symmetry. apply filter_all. by apply no_id_Forall. }
  split_and!.
  - destruct (delete_cases items id) as [[Hno ->]|[Hex ->]]; cbn [fst].
    + split; [done|]. intros Hex. by destruct (Hno Hex).
    + done.
  - rewrite Hafter. apply filter_selected.
  - rewrite Hafter. clear Hafter.
    induction items as [|item items IH]; [done|].
    destruct (decide (has_id id item)) as [Hid|Hid].
    + rewrite (filter_cons_True (has_id id)) by done.
      rewrite filter_cons_False by (intros Hn; exact (Hn Hid)).
      cbn [length]. lia.
    + rewrite (filter_cons_False (has_id id)) by done.
      rewrite filter_cons_True by done.
      cbn [length]. lia.
Qed.

Lemma numeric_no_larger_id items m z :
  is_max_id items m → m < z →
  Forall (λ item, ¬ has_id (VNum (Int z)) item) items.
Proof.
  intros [_ Hle] Hlt. apply Forall_forall.
  intros item Hin Hid%key_of_has_id. specialize (Hle item z Hin Hid). lia.
Qed.

(** X3.  On an array whose keys are safe integers, [getById] of the id
    that [create] assigned returns the created record. *)
Theorem create_then_getById items fields :
  safe_keys items →
  getById (create items fields).2 (prop (create items fields).1 primaryKey)
    = (Some (create items fields).1, (create items fields).2).
Proof.
  intros Hnum.
  destruct (create_numeric StringToNumber primaryKey items fields Hnum)
    as (newId & newItem & -> & -> & _ & _ & _ & Hmax).
  cbn [fst snd]. rewrite prop_insert_eq, getById_find. f_equal.
  rewrite find_app.
  assert (find (has_id (VNum (Int newId))) items = None) as ->.
  { apply find_None. destruct items as [|item0 items0]; [constructor|].
    apply (numeric_no_larger_id _ (newId - 1)); [by apply Hmax|lia]. }
  rewrite find_cons, decide_True; [done|].
  apply strict_equal_int, prop_insert_eq.
Qed.

Local Abbreviation keeps_key := (keeps_key primaryKey).

Lemma merged_key id updates old :
  keeps_key id updates → has_id id old →
  prop (updates ∪ old) primaryKey = prop old primaryKey.
Proof.
  intros Hkeep Hid%key_of_has_id.
  destruct (updates !! primaryKey) as [v|] eqn:Hv.
  - rewrite (prop_union_Some _ _ _ _ Hv), Hid.
    apply strict_equal_eq. by apply Hkeep.
  - by apply prop_union_None.
Qed.

Lemma update_first_match items id updates index old :
  keeps_key id updates → first_match (has_id id) items index old →
  first_match (has_id id) (<[index := updates ∪ old]> items) index
    (updates ∪ old).
Proof.
  intros Hkeep (Hl & Hid & Hbefore). split_and!.
  - apply list_lookup_insert_eq. by eapply lookup_lt_Some.
  - change (strict_equal (prop (updates ∪ old) primaryKey) id).
    rewrite (merged_key id _ _ Hkeep Hid). exact Hid.
  - intros j y Hj Hlt. rewrite list_lookup_insert_ne in Hj by lia.
    by apply (Hbefore j).
Qed.

Lemma getById_missing items id :
  ¬ id_exists items id → getById items id = (None, items).
Proof.
  intros Hno. rewrite getById_find. f_equal. by apply find_None, no_id_Forall.
Qed.

Lemma update_missing items id updates :
  ¬ id_exists items id → update items id updates = (None, items).
Proof.
  intros Hno. unfold generateCrudService.update.
  by rewrite (proj2 (findIndex_None _ _) (proj1 (no_id_Forall _ _ _) Hno)).
Qed.

(** X4.  When the id exists and the partial fields leave the key alone,
    [getById] of the id after [update] returns the record [update]
    returned. *)
Theorem update_then_getById items id updates :
  id_exists items id → keeps_key id updates →
  ∃ merged,
    (update items id updates).1 = Some merged ∧
    getById (update items id updates).2 id
      = (Some merged, (update items id updates).2).
Proof.
  intros (index & old & Hfm)%id_exists_first_match Hkeep.
  exists (updates ∪ old). rewrite (update_found _ _ _ _ _ _ Hfm).
  split; [done|]. cbn [snd]. rewrite getById_find. f_equal.
  eapply find_first_match. by apply update_first_match.
Qed.

(** X5.  Under the same conditions [update] is idempotent: the same call a
    second time returns the same record and leaves the array as the first
    call left it. *)
Theorem update_twice items id updates :
  id_exists items id → keeps_key id updates →
  update (update items id updates).2 id updates = update items id updates.
Proof.
  intros (index & old & Hfm)%id_exists_first_match Hkeep.
  rewrite (update_found _ _ _ _ _ _ Hfm). cbn [snd].
  rewrite (update_found _ _ _ _ _ _ (update_first_match _ _ _ _ _ Hkeep Hfm)).
  assert (updates ∪ (updates ∪ old) = updates ∪ old) as ->.
  { by rewrite (assoc_L (∪)), (idemp_L (∪)). }
  by rewrite list_insert_insert_eq.
Qed.

(** X6.  [delete] of one id does not change what [getById] returns for any
    other id. *)
Theorem delete_keeps_other_lookups items id id' :
  id' ≠ id →
  (getById (delete items id).2 id').1 = (getById items id').1.
Proof.
  intros Hne.
  destruct (delete_cases items id) as [[_ ->]|[_ ->]]; [done|].
  cbn [fst snd]. apply find_filter.
  intros item Hid' Hid. apply Hne.
  by rewrite <- (key_of_has_id _ _ _ Hid'), <- (key_of_has_id _ _ _ Hid).
Qed.

(** X7.  When the partial fields leave the key alone, [update] of one id
    does not change what [getById] returns for any other id. *)
Theorem update_keeps_other_lookups items id id' updates :
  keeps_key id updates → id' ≠ id →
  (getById (update items id updates).2 id').1 = (getById items id').1.
Proof.
  intros Hkeep Hne.
  destruct (find (has_id id) items) as [old|] eqn:E.
  - apply find_Some in E as [index Hfm].
    rewrite (update_found _ _ _ _ _ _ Hfm). cbn [fst snd].
    destruct Hfm as (Hl & Hid & _).
    assert (¬ has_id id' old) as Hold.
    { intros Hid'. apply Hne.
      by rewrite <- (key_of_has_id _ _ _ Hid'), <- (key_of_has_id _ _ _ Hid). }
    apply (find_insert_other _ _ _ old); [done..|].
    change (¬ strict_equal (prop (updates ∪ old) primaryKey) id').
    by rewrite (merged_key id _ _ Hkeep Hid).
  - apply find_None, no_id_Forall in E. by rewrite update_missing.
Qed.

(** X8.  [create] does not change what [getById] returns for an id that
    exists. *)
Theorem create_keeps_existing_lookups items fields id :
  id_exists items id →
  (getById (create items fields).2 id).1 = (getById items id).1.
Proof.
  intros (index & old & Hfm)%id_exists_first_match.
  rewrite create_unfold. cbv zeta. cbn [fst snd].
  rewrite !getById_find. cbn [fst]. rewrite find_app.
  by rewrite (find_first_match _ _ _ _ Hfm).
Qed.

(** *** Ids over a sequence of calls *)

Local Abbreviation perform := (perform StringToNumber primaryKey).
Local Abbreviation perform_all := (perform_all StringToNumber primaryKey).
Local Abbreviation key_preserving := (key_preserving primaryKey).

Lemma keys_below_weaken bound bound' items :
  bound ≤ bound' → keys_below bound items → keys_below bound' items.
Proof.
  intros Hle Hb. eapply Forall_impl; [exact Hb|].
  intros item (z & Hz & Hrange). exists z. split; [done|lia].
Qed.

Lemma create_keeps_below bound items fields :
  keys_below bound items → 0 < bound → bound ≤ 2 ^ 53 →
  keys_below (bound + 1) (create items fields).2.
Proof.
  intros Hb Hpos Hbound.
  destruct (create_numeric StringToNumber primaryKey items fields
              (keys_below_weaken _ _ _ Hbound Hb))
    as (newId & newItem & -> & -> & _ & _ & Hempty & Hmax).
  cbn [snd]. apply Forall_app. split.
  - apply (keys_below_weaken bound); [lia|done].
  - constructor; [|constructor]. exists newId.
    split; [apply prop_insert_eq|].
    destruct items as [|item0 items0].
    + rewrite Hempty by done. lia.
    + pose proof (keys_below_max _ _ _ _ Hb (Hmax ltac:(done))). lia.
Qed.

Lemma update_keeps_below bound items id updates :
  keys_below bound items → keeps_key id updates →
  keys_below bound (update items id updates).2.
Proof.
  intros Hb Hkeep.
  destruct (find (has_id id) items) as [old|] eqn:E.
  - apply find_Some in E as [index Hfm].
    rewrite (update_found _ _ _ _ _ _ Hfm). cbn [snd].
    destruct Hfm as (Hl & Hid & _).
    apply Forall_insert; [done|].
    rewrite (merged_key id _ _ Hkeep Hid).
    exact (proj1 (Forall_lookup _ _) Hb index old Hl).
  - apply find_None, no_id_Forall in E. by rewrite update_missing.
Qed.

Lemma delete_keeps_below bound items id :
  keys_below bound items → keys_below bound (delete items id).2.
Proof.
  intros Hb.
  destruct (delete_cases items id) as [[_ ->]|[_ ->]]; [done|].
  cbn [snd]. apply Forall_forall.
  intros item [_ Hin]%list_elem_of_filter.
  exact (proj1 (Forall_forall _ _) Hb item Hin).
Qed.

Lemma perform_keeps bound items c :
  keys_below bound items → keys_distinct items →
  0 < bound → bound ≤ 2 ^ 53 - 1 → key_preserving c →
  keys_below (bound + 1) (perform items c) ∧
  keys_distinct (perform items c).
Proof.
  intros Hb Hdist Hpos Hbound Hc.
  destruct c as [fields|id updates|id]; cbn.
  - split.
    + apply create_keeps_below; [done|done|lia].
    + apply create_keeps_keys_distinct; [done|].
      apply (keys_below_weaken bound); [lia|done].
  - split.
    + apply (keys_below_weaken bound); [lia|]. by apply update_keeps_below.
    + apply update_keeps_keys_distinct; [done|].
      intros v Hv. left. by apply Hc.
  - split.
    + apply (keys_below_weaken bound); [lia|]. by apply delete_keeps_below.
    + by apply delete_keeps_keys_distinct.
Qed.

(** X9.  Integer keys that are pairwise distinct stay pairwise distinct
    integers over every sequence of calls in which no [update] changes a
    primary key, as long as the ids stay safe: with positive keys below
    [bound] and a sequence of at most 2^53 - [bound] calls, the keys end
    below [bound] plus the number of calls. *)
Theorem calls_keep_integer_distinct_keys bound items cs :
  keys_below bound items → keys_distinct items →
  0 < bound → bound + Z.of_nat (length cs) ≤ 2 ^ 53 →
  Forall key_preserving cs →
  keys_below (bound + Z.of_nat (length cs)) (perform_all items cs) ∧
  keys_distinct (perform_all items cs).
Proof.
  intros Hb Hdist Hpos Hbound Hcs. revert bound items Hb Hdist Hpos Hbound.
  induction Hcs as [|c cs Hc _ IH]; intros bound items Hb Hdist Hpos Hbound.
  - cbn. split; [|done]. by rewrite Z.add_0_r.
  - change (perform_all items (c :: cs))
      with (perform_all (perform items c) cs).
    cbn [length] in *.
    destruct (perform_keeps bound items c) as [Hb' Hdist']; [done..|lia|done|].
    replace (bound + Z.of_nat (S (length cs)))
      with ((bound + 1) + Z.of_nat (length cs)) by lia.
    apply IH; [done|done|lia|lia].
Qed.

Lemma create_new_max items fields :
  safe_keys items →
  ∃ newId,
    prop (create items fields).1 primaryKey = VNum (Int newId) ∧
    is_max_id (create items fields).2 newId.
Proof.
  intros Hnum.
  destruct (create_numeric StringToNumber primaryKey items fields Hnum)
    as (newId & newItem & -> & -> & _ & _ & _ & Hmax).
  exists newId. cbn [fst snd]. split; [apply prop_insert_eq|]. split.
  - eexists. split; [|apply prop_insert_eq].
    apply elem_of_app. right. by left.
  - intros item z [Hin|Hin%list_elem_of_singleton]%elem_of_app Hz.
    + destruct items as [|item0 items0]; [by apply elem_of_nil in Hin|].
      destruct Hmax as [_ Hle]; [done|].
      specialize (Hle item z Hin Hz). lia.
    + subst item. rewrite prop_insert_eq in Hz. injection Hz as ->. lia.
Qed.

(** X10.  On an array whose keys are integers above -2^53 and below
    2^53 - 1, two successive calls of [create] assign consecutive ids. *)
Theorem create_twice_consecutive_ids items fields1 fields2 :
  keys_below (2 ^ 53 - 1) items →
  ∃ k,
    prop (create items fields1).1 primaryKey = VNum (Int k) ∧
    prop (create (create items fields1).2 fields2).1 primaryKey
      = VNum (Int (k + 1)).
Proof.
  intros Hb.
  assert (safe_keys items) as Hsafe
    by (apply (keys_below_weaken (2 ^ 53 - 1)); [lia|done]).
  destruct (create_new_max items fields1 Hsafe) as (k & Hk & Hmax).
  destruct (create_numeric StringToNumber primaryKey items fields1 Hsafe)
    as (newId & newItem & Hc & -> & _ & _ & Hempty & Hmax').
  assert (k = newId) as ->.
  { rewrite Hc in Hk. cbn [fst] in Hk. rewrite prop_insert_eq in Hk.
    by injection Hk as ->. }
  assert (safe newId) as Hk_safe.
  { destruct items as [|item0 items0].
    - rewrite Hempty by done. unfold safe. lia.
    - pose proof (keys_below_max _ _ _ _ Hb (Hmax' ltac:(done))).
      unfold safe. lia. }
  exists newId. split; [done|].
  rewrite (create_id_from_max _ _ _ _ newId); [|..|done].
  - by rewrite num_add_succ.
  - rewrite Hc. cbn [snd]. apply Forall_app. split.
    + by apply (keys_below_numeric _ (2 ^ 53 - 1)).
    + constructor; [|constructor]. exists newId. apply prop_insert_eq.
Qed.

(** X11.  When the key of some record converts to NaN, as the key of a
    record without the primary-key field does, [create] assigns the id NaN;
    no call by that id reaches the created record: [getById] and [update]
    return absence and [delete] returns false. *)
Theorem create_with_unconvertible_key items fields updates :
  (∃ item, item ∈ items ∧ Number StringToNumber (prop item primaryKey) = NaN) →
  prop (create items fields).1 primaryKey = VNum NaN ∧
  (create items fields).1 ∈ (create items fields).2 ∧
  getById (create items fields).2 (VNum NaN)
    = (None, (create items fields).2) ∧
  update (create items fields).2 (VNum NaN) updates
    = (None, (create items fields).2) ∧
  delete (create items fields).2 (VNum NaN)
    = (false, (create items fields).2).
Proof.
  intros (item & Hin & HNaN).
  assert (∀ l, ¬ id_exists l (VNum NaN)) as Hno.
  { intros l (i & _ & Hid). exact (strict_equal_NaN _ Hid). }
  split_and!.
  - rewrite create_unfold. cbv zeta. cbn [fst]. rewrite prop_insert_eq.
    destruct items as [|item0 items0]; [by apply elem_of_nil in Hin|].
    rewrite Math_max_NaN; [done|].
    rewrite <- HNaN.
    by apply (list_elem_of_fmap_2
                (λ i : record, Number StringToNumber (prop i primaryKey))).
  - rewrite create_unfold. cbv zeta. cbn [fst snd].
    apply elem_of_app. right. by left.
  - by apply getById_missing.
  - by apply update_missing.
  - by apply delete_missing.
Qed.

End Compositions.

(** ** Pages of the data table *)

Lemma slice_window {A} (xs : list A) start count :
  0 ≤ start → 0 ≤ count →
  slice xs start (start + count)
    = take (Z.to_nat count) (drop (Z.to_nat start) xs).
Proof.
  intros Hs Hc. unfold slice. cbv zeta.
  rewrite !decide_False by lia.
  destruct (decide (start ≤ Z.of_nat (length xs))) as [Hle|Hgt].
  - rewrite (Z.min_l start) by lia.
    destruct (decide (start + count ≤ Z.of_nat (length xs))) as [Hle'|Hgt'].
    + rewrite Z.min_l by lia. f_equal. lia.
    + rewrite Z.min_r by lia.
      rewrite !take_ge; [done|rewrite length_drop; lia..].
  - rewrite (Z.min_r start) by lia.
    rewrite !(drop_ge xs) by lia. by rewrite !take_nil.
Qed.

Lemma Math_ceil_div_bounds a b :
  0 < b → b * (Math_ceil_div a b - 1) < a ≤ b * Math_ceil_div a b.
Proof.
  intros Hb. unfold Math_ceil_div.
  pose proof (Z.div_mod (- a) b ltac:(lia)).
  pose proof (Z.mod_pos_bound (- a) b Hb). nia.
Qed.

Lemma chunks_concat {A} (xs : list A) size k :
  (0 < size)%nat → (length xs ≤ size * k)%nat →
  concat ((λ i, take size (drop (size * i) xs)) <$> seq 0 k) = xs.
Proof.
  intros Hsize. revert xs. induction k as [|k IH]; intros xs Hlen.
  - destruct xs; [done|]. cbn in Hlen. lia.
  - change (seq 0 (S k)) with (0%nat :: seq 1 k).
    rewrite fmap_cons, <- fmap_S_seq, <- list_fmap_compose. cbn [concat].
    rewrite Nat.mul_0_r, drop_0.
    rewrite (list_fmap_ext _ (λ i, take size (drop (size * i) (drop size xs)))).
    + rewrite IH by (rewrite length_drop; lia). apply take_drop.
    + intros _ i _. cbn. rewrite drop_drop. do 2 f_equal. lia.
Qed.

Section Pagination.

Variable toLowerCase : string → string.
Variable NumberToString : num → string.

Local Abbreviation filteredData :=
  (DataTable.filteredData toLowerCase NumberToString).
Local Abbreviation totalPages :=
  (DataTable.totalPages toLowerCase NumberToString).
Local Abbreviation paginatedData :=
  (DataTable.paginatedData toLowerCase NumberToString).
Local Abbreviation goToPage :=
  (DataTable.goToPage toLowerCase NumberToString).
Local Abbreviation rendersNoRecords :=
  (DataTable.rendersNoRecords toLowerCase NumberToString).
Local Abbreviation rendersPagination :=
  (DataTable.rendersPagination toLowerCase NumberToString).

Lemma totalPages_bounds searchTerm data :
  10 * (totalPages searchTerm data - 1)
    < Z.of_nat (length (filteredData searchTerm data))
    ≤ 10 * totalPages searchTerm data.
Proof. apply (Math_ceil_div_bounds _ 10). done. Qed.

Lemma paginatedData_window searchTerm page data :
  1 ≤ page →
  paginatedData searchTerm page data
    = take 10 (drop (10 * Z.to_nat (page - 1)) (filteredData searchTerm data)).
Proof.
  intros Hpage.
  unfold DataTable.paginatedData, DataTable.startIndex, DataTable.itemsPerPage.
  rewrite slice_window by lia. do 2 f_equal. lia.
Qed.

(** X12.  The pages 1 to [totalPages] cut the filtered rows into consecutive
    pieces: shown one after the other they are the filtered rows, each once
    and in order. *)
Theorem pages_partition_rows searchTerm data :
  concat ((λ page, paginatedData searchTerm page data)
            <$> seqZ 1 (totalPages searchTerm data))
    = filteredData searchTerm data.
Proof.
  unfold seqZ. rewrite <- list_fmap_compose.
  rewrite (list_fmap_ext _
             (λ i, take 10 (drop (10 * i) (filteredData searchTerm data)))).
  - apply chunks_concat; [lia|].
    pose proof (totalPages_bounds searchTerm data). lia.
  - intros _ i _. cbn. rewrite paginatedData_window by lia.
    do 3 f_equal. lia.
Qed.

(** X13.  A page never has more than ten rows; every page before the last
    has exactly ten, and the last page has at least one. *)
Theorem page_sizes searchTerm page data :
  (length (paginatedData searchTerm page data) ≤ 10)%nat ∧
  (1 ≤ page < totalPages searchTerm data →
   length (paginatedData searchTerm page data) = 10%nat) ∧
  (1 ≤ page ∧ page = totalPages searchTerm data →
   (1 ≤ length (paginatedData searchTerm page data))%nat).
Proof.
  pose proof (totalPages_bounds searchTerm data) as Hb.
  split_and!.
  - unfold DataTable.paginatedData, DataTable.startIndex,
      DataTable.itemsPerPage, slice. cbv zeta.
    rewrite length_take. repeat case_decide; lia.
  - intros Hp. rewrite paginatedData_window by lia.
    rewrite length_take, length_drop. lia.
  - intros [Hp Heq]. rewrite paginatedData_window by lia.
    rewrite length_take, length_drop. lia.
Qed.

(** X14.  [goToPage] always sets a page number from 1 on, and keeps a number
    between 1 and [totalPages] as it is; when there are rows to show, the
    page it sets is at most [totalPages] and shows at least one row. *)
Theorem goToPage_lands_on_rows searchTerm data newPage :
  1 ≤ goToPage searchTerm data newPage ∧
  (1 ≤ newPage ≤ totalPages searchTerm data →
   goToPage searchTerm data newPage = newPage) ∧
  (filteredData searchTerm data ≠ [] →
   goToPage searchTerm data newPage ≤ totalPages searchTerm data ∧
   paginatedData searchTerm (goToPage searchTerm data newPage) data ≠ []).
Proof.
  pose proof (totalPages_bounds searchTerm data) as Hb.
  unfold DataTable.goToPage. split_and!; [lia..|].
  intros Hrows.
  assert (0 < length (filteredData searchTerm data))%nat as Hlen
    by (destruct (filteredData searchTerm data); [done|cbn; lia]).
  split; [lia|].
  intros Hnil%(f_equal length). revert Hnil.
  rewrite paginatedData_window by lia.
  rewrite length_take, length_drop. cbn [length]. lia.
Qed.

(** X15.  A page number beyond [totalPages], as the number becomes when the
    data shrink while a later page is shown, selects no row: the table
    renders "No records found", and with at most ten filtered rows it
    renders no pagination controls either. *)
Theorem page_beyond_last_is_empty searchTerm page data :
  totalPages searchTerm data < page →
  paginatedData searchTerm page data = [] ∧
  rendersNoRecords false searchTerm page data = true ∧
  ((length (filteredData searchTerm data) ≤ 10)%nat →
   rendersPagination searchTerm data = false).
Proof.
  intros Hpage. pose proof (totalPages_bounds searchTerm data) as Hb.
  assert (paginatedData searchTerm page data = []) as Hnil.
  { rewrite paginatedData_window by lia.
    rewrite drop_ge by lia. apply take_nil. }
  split_and!; [done| |].
  - unfold DataTable.rendersNoRecords. by rewrite Hnil.
  - intros Hlen. unfold DataTable.rendersPagination.
    apply bool_decide_eq_false_2. lia.
Qed.

End Pagination.

(** ** The offers page and the services *)

Lemma with_offers_same s : with_offers s (offers s) = s.
Proof. by destruct s. Qed.

Lemma offerData_no_key StringToNumber data :
  OfferPage.offerData StringToNumber data !! "offer_id" = None.
Proof.
  unfold OfferPage.offerData.
  rewrite lookup_insert_ne by done. by rewrite lookup_singleton_ne.
Qed.

Lemma offerData_B_ID StringToNumber data :
  prop (OfferPage.offerData StringToNumber data) "B_ID" =
    match OfferPage.B_ID data with
    | Some b => if decide (b = "") then VNull
                else VNum (Number StringToNumber (VStr b))
    | None => VNull
    end.
Proof.
  unfold OfferPage.offerData, prop.
  rewrite lookup_insert_ne by done. by rewrite lookup_singleton_eq.
Qed.

Lemma offerData_O_name StringToNumber data :
  prop (OfferPage.offerData StringToNumber data) "O_name"
    = VStr (OfferPage.O_name data).
Proof. unfold OfferPage.offerData, prop. by rewrite lookup_insert_eq. Qed.

Section OffersPage.

Variable StringToNumber : string → num.
Variable NumberToString : num → string.

Local Abbreviation onSubmit :=
  (OfferPage.onSubmit StringToNumber).
Local Abbreviation handleDelete := (OfferPage.handleDelete NumberToString).
Local Abbreviation offerData := (OfferPage.offerData StringToNumber).
Local Abbreviation react_all :=
  (OfferPage.react_all StringToNumber NumberToString).

Lemma onSubmit_add data s st :
  OfferPage.currentOffer st = None →
  onSubmit data s st =
    (with_offers s
       (generateCrudService.create StringToNumber "offer_id" (offers s)
          (offerData data)).2,
     OfferPage.mkState
       (generateCrudService.create StringToNumber "offer_id" (offers s)
          (offerData data)).2
       (OfferPage.businesses st) (OfferPage.isLoading st) false None
       (OfferPage.toasts st ++
          [mkToast None "Offer created"
             (OfferPage.O_name data ++ " has been added successfully")])).
Proof.
  intros Hadd. unfold OfferPage.onSubmit. rewrite Hadd.
  unfold offerService_create.
  destruct (generateCrudService.create StringToNumber "offer_id" (offers s)
              (offerData data)) as [newItem items].
  cbn. by destruct s.
Qed.

Lemma create_appends items fields :
  ∃ newId,
    (generateCrudService.create StringToNumber "offer_id" items fields).2
      = items ++ [<["offer_id" := VNum newId]> fields].
Proof. rewrite create_unfold. cbv zeta. by eexists. Qed.

(** X16.  The form submitted in add mode without a business, the field
    undefined or the empty string, stores an offer whose [B_ID] is null at
    the end of the offers.  [getBusinessOffers] returns that offer for no
    business, and when no business of the page has the key null its
    Business column shows "-".  The page then holds the offers of the
    store. *)
Theorem offer_without_business data s st :
  OfferPage.currentOffer st = None →
  OfferPage.B_ID data = None ∨ OfferPage.B_ID data = Some "" →
  ∃ newOffer,
    offers (onSubmit data s st).1 = offers s ++ [newOffer] ∧
    OfferPage.offers (onSubmit data s st).2 = offers (onSubmit data s st).1 ∧
    prop newOffer "O_name" = VStr (OfferPage.O_name data) ∧
    prop newOffer "B_ID" = VNull ∧
    (∀ id, newOffer ∉ getBusinessOffers (onSubmit data s st).1 id) ∧
    (Forall (λ b, prop b "B_ID" ≠ VNull)
       (OfferPage.businesses (onSubmit data s st).2) →
     OfferPage.businessColumn (onSubmit data s st).2 newOffer = VStr "-").
Proof.
  intros Hadd HB.
  rewrite (onSubmit_add data s st Hadd).
  destruct (create_appends (offers s) (offerData data)) as (newId & ->).
  set (newOffer := <["offer_id" := VNum newId]> (offerData data)).
  assert (prop newOffer "B_ID" = VNull) as Hnull.
  { unfold newOffer. rewrite (prop_insert_ne _ "offer_id" "B_ID") by done.
    rewrite offerData_B_ID. by destruct HB as [->| ->]. }
  exists newOffer. cbn [fst snd]. split_and!; try done.
  - intros id [Hid _]%list_elem_of_filter.
    apply strict_equal_eq in Hid. by rewrite Hnull in Hid.
  - intros Hkeys. unfold OfferPage.businessColumn. rewrite Hnull.
    rewrite (proj2 (find_None _ _)); [done|].
    eapply Forall_impl; [exact Hkeys|].
    intros b Hb Heq%strict_equal_eq. exact (Hb Heq).
Qed.

Lemma onSubmit_edit data s st current :
  OfferPage.currentOffer st = Some current →
  onSubmit data s st =
    (with_offers s
       (generateCrudService.update "offer_id" (offers s)
          (prop current "offer_id") (offerData data)).2,
     OfferPage.mkState
       (generateCrudService.update "offer_id" (offers s)
          (prop current "offer_id") (offerData data)).2
       (OfferPage.businesses st) (OfferPage.isLoading st) false
       (Some current)
       (OfferPage.toasts st ++
          [mkToast None "Offer updated"
             (OfferPage.O_name data ++ " has been updated successfully")])).
Proof.
  intros Hedit. unfold OfferPage.onSubmit. rewrite Hedit.
  unfold offerService_update.
  destruct (generateCrudService.update "offer_id" (offers s)
              (prop current "offer_id") (offerData data)) as [result items].
  cbn. by destruct s.
Qed.

Lemma offerData_keeps_key data id :
  keeps_key "offer_id" id (offerData data).
Proof. intros v Hv. by rewrite offerData_no_key in Hv. Qed.

(** X17.  The form submitted in add mode with a business, the field a
    non-empty string that converts to a number other than NaN, stores an
    offer that [getBusinessOffers] returns for that business, after the
    offers it returned before; for every other business it returns what it
    returned before. *)
Theorem offer_with_business data s st b :
  OfferPage.currentOffer st = None →
  OfferPage.B_ID data = Some b → b ≠ "" → StringToNumber b ≠ NaN →
  ∃ newOffer,
    offers (onSubmit data s st).1 = offers s ++ [newOffer] ∧
    prop newOffer "B_ID" = VNum (StringToNumber b) ∧
    getBusinessOffers (onSubmit data s st).1 (StringToNumber b)
      = getBusinessOffers s (StringToNumber b) ++ [newOffer] ∧
    (∀ id, id ≠ StringToNumber b →
           getBusinessOffers (onSubmit data s st).1 id
             = getBusinessOffers s id).
Proof.
  intros Hadd HB Hb Hnum.
  rewrite (onSubmit_add data s st Hadd).
  destruct (create_appends (offers s) (offerData data)) as (newId & ->).
  set (newOffer := <["offer_id" := VNum newId]> (offerData data)).
  assert (prop newOffer "B_ID" = VNum (StringToNumber b)) as HBID.
  { unfold newOffer. rewrite (prop_insert_ne _ "offer_id" "B_ID") by done.
    rewrite offerData_B_ID, HB. by rewrite decide_False. }
  exists newOffer. cbn [fst snd]. split_and!; try done.
  - unfold getBusinessOffers. cbn [offers with_offers].
    rewrite filter_app. f_equal.
    rewrite filter_cons_True, filter_nil; [done|].
    rewrite HBID. split; [done|]. by intros [= ?].
  - intros id Hid. unfold getBusinessOffers. cbn [offers with_offers].
    rewrite filter_app, filter_cons_False, filter_nil, app_nil_r; [done|].
    rewrite HBID. intros [[= ?] _]. by apply Hid.
Qed.

(** X18.  The form submitted in edit mode for an offer whose id no record
    of the store has leaves the store as it is, closes the dialog and still
    raises the toast "Offer updated". *)
Theorem edit_of_missing_offer data s st current :
  OfferPage.currentOffer st = Some current →
  ¬ id_exists "offer_id" (offers s) (prop current "offer_id") →
  (onSubmit data s st).1 = s ∧
  OfferPage.offers (onSubmit data s st).2 = offers s ∧
  OfferPage.isDialogOpen (onSubmit data s st).2 = false ∧
  title <$> last (OfferPage.toasts (onSubmit data s st).2)
    = Some "Offer updated".
Proof.
  intros Hedit Hno. rewrite (onSubmit_edit _ _ _ _ Hedit).
  rewrite (update_missing _ _ _ _ Hno). cbn [fst snd].
  split_and!; [apply with_offers_same|done..|].
  cbn [OfferPage.toasts]. by rewrite last_snoc.
Qed.


Lemma react_offers bound w e :
  keys_below "offer_id" bound (offers w.1) →
  keys_distinct "offer_id" (offers w.1) →
  0 < bound → bound ≤ 2 ^ 53 - 1 →
  keys_below "offer_id" (bound + 1)
    (offers (OfferPage.react StringToNumber NumberToString w e).1) ∧
  keys_distinct "offer_id"
    (offers (OfferPage.react StringToNumber NumberToString w e).1).
Proof.
  destruct w as [s st]. cbn [fst snd]. intros Hb Hdist Hpos Hbound.
  assert (keys_below "offer_id" (bound + 1) (offers s)) as Hb'
    by (apply (keys_below_weaken _ bound); [lia|done]).
  destruct e as [| |offer|data|confirmed offer]; cbn [OfferPage.react fst snd].
  - by destruct s.
  - done.
  - done.
  - destruct (OfferPage.currentOffer st) as [current|] eqn:Hcur.
    + rewrite (onSubmit_edit _ _ _ _ Hcur). cbn [fst offers with_offers].
      split.
      * apply update_keeps_below; [done|apply offerData_keeps_key].
      * apply update_keeps_keys_distinct; [done|].
        intros v Hv. by rewrite offerData_no_key in Hv.
    + rewrite (onSubmit_add _ _ _ Hcur). cbn [fst offers with_offers].
      split.
      * apply create_keeps_below; [done|done|lia].
      * apply create_keeps_keys_distinct; [done|].
        apply (keys_below_weaken _ bound); [lia|done].
  - destruct confirmed; [|done].
    unfold OfferPage.handleDelete, offerService_delete, offerService_getAll.
    destruct (generateCrudService.delete "offer_id" (offers s)
                (prop offer "offer_id")) as [result items] eqn:E.
    cbn. replace items with
      (generateCrudService.delete "offer_id" (offers s)
         (prop offer "offer_id")).2 by (by rewrite E).
    split.
    + by apply delete_keeps_below.
    + by apply delete_keeps_keys_distinct.
Qed.

(** X20.  Whatever happens to the page, in any order (mounting, the Add and
    Edit buttons, submitting the form in either mode, asking for a deletion
    and confirming it or not), offers whose keys are pairwise distinct
    integers keep pairwise distinct integer keys, as long as the ids stay
    safe: with positive keys below [bound] and at most 2^53 - [bound]
    events, the keys end below [bound] plus the number of events. *)
Theorem page_keeps_offer_ids bound w es :
  keys_below "offer_id" bound (offers w.1) →
  keys_distinct "offer_id" (offers w.1) →
  0 < bound → bound + Z.of_nat (length es) ≤ 2 ^ 53 →
  keys_below "offer_id" (bound + Z.of_nat (length es))
    (offers (react_all w es).1) ∧
  keys_distinct "offer_id" (offers (react_all w es).1).
Proof.
  revert bound w.
  induction es as [|e es IH]; intros bound w Hb Hdist Hpos Hbound.
  - cbn. split; [|done]. by rewrite Z.add_0_r.
  - change (react_all w (e :: es))
      with (react_all (OfferPage.react StringToNumber NumberToString w e) es).
    cbn [length] in *.
    destruct (react_offers bound w e) as [Hb' Hd]; [done..|lia|].
    replace (bound + Z.of_nat (S (length es)))
      with ((bound + 1) + Z.of_nat (length es)) by lia.
    apply IH; [done|done|lia|lia].
Qed.

End OffersPage.

Lemma delete_leaves_no_id primaryKey items id :
  ¬ id_exists primaryKey
      (generateCrudService.delete primaryKey items id).2 id.
Proof.
  destruct (delete_cases primaryKey items id) as [[Hno ->]|[_ ->]]; [done|].
  apply no_id_after_filter.
Qed.

Lemma fetchData_result s st :
  OfferPage.fetchData s st =
    (s, OfferPage.mkState (offers s) (businesses s) false
          (OfferPage.isDialogOpen st) (OfferPage.currentOffer st)
          (OfferPage.toasts st)).
Proof. by destruct s. Qed.

(** X21.  No cascade.  [businessService.delete] leaves the offers as they
    are, so every [getBusinessOffers] returns what it returned before, also
    for the deleted business; on the offers page mounted afterwards the
    Business column of each offer of that business shows "-". *)
Theorem business_delete_leaves_offers s st b :
  offers (businessService_delete s (VNum b)).2 = offers s ∧
  (∀ id, getBusinessOffers (businessService_delete s (VNum b)).2 id
         = getBusinessOffers s id) ∧
  (∀ offer,
     prop offer "B_ID" = VNum b →
     OfferPage.businessColumn
       (OfferPage.fetchData (businessService_delete s (VNum b)).2 st).2 offer
       = VStr "-").
Proof.
  pose proof (delete_leaves_no_id "B_ID" (businesses s) (VNum b)) as Hno.
  unfold businessService_delete.
  destruct (generateCrudService.delete "B_ID" (businesses s) (VNum b))
    as [result items].
  cbn [fst snd] in *. split_and!; [done..|].
  intros offer Hoffer. rewrite fetchData_result.
  unfold OfferPage.businessColumn. cbn [snd OfferPage.businesses].
  rewrite Hoffer. rewrite (proj2 (find_None _ _)); [done|].
  by apply no_id_Forall.
Qed.

(** ** Totals *)

Lemma sum_field_app field xs ys :
  sum_field field (xs ++ ys) = sum_field field xs + sum_field field ys.
Proof.
  unfold sum_field. induction xs as [|x xs IH]; cbn; [done|].
  rewrite IH. lia.
Qed.

Lemma int_field_eq field item z :
  prop item field = VNum (Int z) → int_field field item = z.
Proof. unfold int_field. by intros ->. Qed.

Lemma delete_distinct primaryKey before item after id :
  keys_distinct primaryKey (before ++ item :: after) →
  has_id primaryKey id item →
  generateCrudService.delete primaryKey (before ++ item :: after) id
    = (true, before ++ after).
Proof.
  intros Hdist Hid.
  destruct (distinct_keys_split _ _ _ _ _ Hdist Hid) as [Hb Ha].
  rewrite delete_found.
  - rewrite filter_app, filter_cons_False by (intros Hn; exact (Hn Hid)).
    by rewrite !filter_all.
  - exists item. split; [|done]. apply elem_of_app. right. by left.
Qed.

Section TotalsFacts.

Variable StringToNumber : string → num.
Variable NumberToString : num → string.

Local Abbreviation js_plus := (js_plus StringToNumber NumberToString).
Local Abbreviation totalRevenue :=
  (Dashboard.totalRevenue StringToNumber NumberToString).
Local Abbreviation create :=
  (generateCrudService.create StringToNumber "T_ID").
Local Abbreviation delete := (generateCrudService.delete "T_ID").

Lemma totalRevenue_snoc transactions transaction :
  totalRevenue (transactions ++ [transaction])
    = js_plus (totalRevenue transactions) (prop transaction "Amount").
Proof. unfold Dashboard.totalRevenue. by rewrite foldl_snoc. Qed.

Lemma sum_field_nonneg field items :
  natural_field field items → 0 ≤ sum_field field items.
Proof.
  induction 1 as [|t ts (z & Hz & Hz0) _ IH]; [done|].
  change (sum_field field (t :: ts))
    with (int_field field t + sum_field field ts).
  rewrite (int_field_eq _ _ _ Hz). lia.
Qed.

Lemma sum_from field start items :
  natural_field field items →
  0 ≤ start → start + sum_field field items ≤ 2 ^ 53 →
  foldl (λ sum item, js_plus sum (prop item field)) (VNum (Int start)) items
    = VNum (Int (start + sum_field field items)).
Proof.
  intros Hnat. revert start.
  induction Hnat as [|t ts (z & Hz & Hz0) Hts IH]; intros start Hstart Hle.
  - cbn. do 2 f_equal. lia.
  - pose proof (sum_field_nonneg _ _ Hts) as Hrest.
    change (sum_field field (t :: ts))
      with (int_field field t + sum_field field ts) in *.
    rewrite (int_field_eq _ _ _ Hz) in *.
    cbn [foldl]. rewrite Hz.
    change (js_plus (VNum (Int start)) (VNum (Int z)))
      with (VNum (num_add (Int start) (Int z))).
    rewrite num_add_exact by lia.
    rewrite IH by lia. do 2 f_equal. lia.
Qed.

(** X22.  When the amounts of the transactions are non-negative integers
    that add up to at most 2^53, the total revenue of the dashboard is the
    sum of the amounts; after [create] of a transaction with such an amount
    [a], the sum with [a] still at most 2^53, it is that sum plus [a]. *)
Theorem totalRevenue_sums_amounts transactions fields a :
  natural_field "Amount" transactions →
  prop fields "Amount" = VNum (Int a) →
  0 ≤ a → sum_field "Amount" transactions + a ≤ 2 ^ 53 →
  totalRevenue transactions = VNum (Int (sum_field "Amount" transactions)) ∧
  totalRevenue (create transactions fields).2
    = VNum (Int (sum_field "Amount" transactions + a)).
Proof.
  intros Hnat Ha Ha0 Hle.
  pose proof (sum_field_nonneg _ _ Hnat) as Hsum.
  assert (totalRevenue transactions
          = VNum (Int (sum_field "Amount" transactions))) as Htotal.
  { unfold Dashboard.totalRevenue. rewrite sum_from; [done|done|lia|lia]. }
  split; [done|].
  rewrite create_unfold. cbv zeta. cbn [snd].
  rewrite totalRevenue_snoc, Htotal.
  rewrite (prop_insert_ne _ "T_ID" "Amount") by done. rewrite Ha.
  change (js_plus (VNum (Int (sum_field "Amount" transactions)))
            (VNum (Int a)))
    with (VNum (num_add (Int (sum_field "Amount" transactions)) (Int a))).
  by rewrite num_add_exact by lia.
Qed.


Lemma sum_of_numbers start transactions :
  Forall (λ t, ∃ k, prop t "Amount" = VNum k) transactions →
  ∃ k, foldl (λ sum transaction, js_plus sum (prop transaction "Amount"))
             (VNum start) transactions = VNum k.
Proof.
  intros Hnum. revert start.
  induction Hnum as [|t ts [k Hk] _ IH]; intros start; [by eexists|].
  cbn [foldl]. rewrite Hk. apply IH.
Qed.

Lemma sum_from_NaN transactions :
  Forall (λ t, ∃ k, prop t "Amount" = VNum k) transactions →
  foldl (λ sum transaction, js_plus sum (prop transaction "Amount"))
        (VNum NaN) transactions = VNum NaN.
Proof.
  induction 1 as [|t ts [k Hk] _ IH]; [done|].
  cbn [foldl]. by rewrite Hk.
Qed.

(** X24.  One amount that is NaN, as [Number] of a text that is no number
    is, makes the total revenue NaN, whatever numbers the other amounts
    are. *)
Theorem totalRevenue_NaN transactions :
  Forall (λ t, ∃ k, prop t "Amount" = VNum k) transactions →
  (∃ t, t ∈ transactions ∧ prop t "Amount" = VNum NaN) →
  totalRevenue transactions = VNum NaN.
Proof.
  intros Hnum (t & Hin & Ht).
  destruct (list_elem_of_split _ _ Hin) as (before & after & ->).
  apply Forall_app in Hnum as [Hbefore [_ Hafter]%Forall_cons].
  unfold Dashboard.totalRevenue. rewrite foldl_app. cbn [foldl]. rewrite Ht.
  destruct (sum_of_numbers (Int 0) before Hbefore) as [k ->].
  replace (js_plus (VNum k) (VNum NaN)) with (VNum NaN) by (by destruct k).
  by apply sum_from_NaN.
Qed.

(** *** Revenue by business *)

Local Abbreviation addToBusinessMap :=
  (AnalyticsCharts.addToBusinessMap StringToNumber NumberToString).
Local Abbreviation revenueByBusinessData :=
  (AnalyticsCharts.revenueByBusinessData StringToNumber NumberToString).
Local Abbreviation analyticsTotalRevenue :=
  (Dashboard.analyticsTotalRevenue StringToNumber NumberToString).

Lemma slice_sum_app xs ys : slice_sum (xs ++ ys) = slice_sum xs + slice_sum ys.
Proof.
  unfold slice_sum. induction xs as [|x xs IH]; cbn; [done|].
  rewrite IH. by destruct (AnalyticsCharts.revenue x) as [| | |[]|]; lia.
Qed.

Lemma slice_sum_int sl slices z :
  AnalyticsCharts.revenue sl = VNum (Int z) →
  slice_sum (sl :: slices) = z + slice_sum slices.
Proof. intros Hz. cbn. by rewrite Hz. Qed.

Lemma slice_sum_nonneg slices :
  Forall natural_slice slices → 0 ≤ slice_sum slices.
Proof.
  induction 1 as [|sl slices (z & Hz & Hz0) _ IH]; [done|].
  rewrite (slice_sum_int _ _ z) by done. lia.
Qed.

Lemma Map_lookup_key {V} (m : list (value * V)) k :
  k ∈ m.*1 →
  ∃ i e, first_match (λ e, e.1 = k) m i e.
Proof.
  intros (e & -> & Hin)%list_elem_of_fmap.
  destruct (list_find_elem_of (λ e', e'.1 = e.1) m e Hin eq_refl)
    as [[i e'] Hf].
  exists i, e'. exact (proj1 (list_find_Some _ _ _ _) Hf).
Qed.

Lemma grouped_step businesses m done analytic z :
  grouped m done →
  prop analytic "total_revenue" = VNum (Int z) →
  0 ≤ z → sum_field "total_revenue" done + z ≤ 2 ^ 53 →
  grouped (addToBusinessMap businesses m analytic) (done ++ [analytic]).
Proof.
  intros (Hnd & Hkeys & Hint & Hsum) Hz Hz0 Hle.
  unfold AnalyticsCharts.addToBusinessMap. cbv zeta.
  set (k := prop analytic "B_ID").
  set (nm := AnalyticsCharts.businessName NumberToString businesses analytic).
  unfold Map_has. case_bool_decide as Hk.
  - destruct (Map_lookup_key m k Hk) as (i & e & Hfm).
    unfold Map_get, Map_set.
    rewrite (find_first_match _ _ _ _ Hfm).
    rewrite (proj2 (findIndex_Some _ _ _) (ex_intro _ e Hfm)).
    cbn [fmap option_fmap option_map].
    destruct Hfm as (Hl & He & _).
    assert (m.*2 !! i = Some e.2) as Hl2 by (by rewrite list_lookup_fmap, Hl).
    destruct (proj1 (Forall_lookup _ _) Hint i _ Hl2) as (r & Hr & Hr0).
    pose proof (take_drop_middle (m.*2) i e.2 Hl2) as Hmid.
    pose proof (slice_sum_nonneg _ (Forall_take _ i _ Hint)) as Hl1.
    pose proof (slice_sum_nonneg _ (Forall_drop _ (S i) _ Hint)) as Hl3.
    assert (slice_sum m.*2
            = slice_sum (take i m.*2) + (r + slice_sum (drop (S i) m.*2)))
      as Hsplit.
    { rewrite <- Hmid at 1.
      by rewrite slice_sum_app, (slice_sum_int e.2 _ r). }
    rewrite Hr, Hz.
    change (js_plus (VNum (Int r)) (VNum (Int z)))
      with (VNum (num_add (Int r) (Int z))).
    rewrite num_add_exact by lia.
    set (sl := AnalyticsCharts.mkSlice nm (VNum (Int (r + z)))).
    assert ((<[i := (k, sl)]> m).*1 = m.*1) as Hsame.
    { rewrite list_fmap_insert. apply list_insert_id.
      rewrite list_lookup_fmap, Hl. cbn. by rewrite He. }
    split_and!.
    + by rewrite Hsame.
    + intros k'. rewrite Hsame, fmap_app, elem_of_app, Hkeys.
      split; [by left|]. intros [?|Hk'%list_elem_of_singleton]; [done|].
      subst k'. by apply Hkeys.
    + rewrite list_fmap_insert. apply Forall_insert; [done|].
      exists (r + z). split; [done|lia].
    + rewrite list_fmap_insert, sum_field_app, <- Hsum, Hsplit.
      rewrite insert_take_drop by (by eapply lookup_lt_Some).
      rewrite slice_sum_app.
      rewrite (slice_sum_int sl _ (r + z)) by done.
      cbn [sum_field foldr]. rewrite (int_field_eq _ _ _ Hz). cbn. lia.
  - unfold Map_set.
    rewrite (proj2 (findIndex_None _ _)).
    2:{ apply Forall_forall. intros e Hin He. apply Hk. subst k.
        rewrite <- He. by apply (list_elem_of_fmap_2 fst). }
    unfold grouped. rewrite !fmap_app. cbn [fmap list_fmap fst snd].
    split_and!.
    + apply NoDup_app. split_and!; [done| |apply NoDup_singleton].
      intros k' Hk' ->%list_elem_of_singleton. by apply Hk.
    + intros k'. rewrite !elem_of_app, Hkeys. cbn.
      by rewrite !list_elem_of_singleton.
    + apply Forall_app. split; [done|]. constructor; [|constructor].
      by exists z.
    + rewrite slice_sum_app, sum_field_app, Hsum.
      rewrite (slice_sum_int _ _ z) by done.
      cbn [sum_field foldr]. rewrite (int_field_eq _ _ _ Hz). cbn. lia.
Qed.

Lemma grouped_all businesses analytics :
  natural_field "total_revenue" analytics →
  sum_field "total_revenue" analytics ≤ 2 ^ 53 →
  grouped (foldl (addToBusinessMap businesses) [] analytics) analytics.
Proof.
  induction analytics as [|analytic analytics IH] using rev_ind;
    intros Hnat Hle.
  - split_and!; [constructor|done|constructor|done].
  - apply Forall_app in Hnat as [Hnat [(z & Hz & Hz0) _]%Forall_cons].
    rewrite sum_field_app in Hle.
    change (sum_field "total_revenue" [analytic])
      with (int_field "total_revenue" analytic + 0) in Hle.
    rewrite (int_field_eq _ _ _ Hz) in Hle.
    rewrite foldl_snoc.
    apply (grouped_step _ _ _ _ z); [apply IH; [done|lia]|done|done|lia].
Qed.

(** X25.  When the revenues of the analytics records are non-negative
    integers that add up to at most 2^53, the pie of revenue by business
    has one slice for each business id that occurs, the revenues of the
    slices are integers, and they add up to the sum of the revenues, which
    is the analytics total of the dashboard. *)
Theorem revenue_pie_adds_up analytics businesses :
  natural_field "total_revenue" analytics →
  sum_field "total_revenue" analytics ≤ 2 ^ 53 →
  Forall (λ sl, ∃ z, AnalyticsCharts.revenue sl = VNum (Int z))
    (revenueByBusinessData analytics businesses) ∧
  slice_sum (revenueByBusinessData analytics businesses)
    = sum_field "total_revenue" analytics ∧
  analyticsTotalRevenue analytics
    = VNum (Int (slice_sum (revenueByBusinessData analytics businesses))) ∧
  length (revenueByBusinessData analytics businesses)
    = length (remove_dups ((λ a, prop a "B_ID") <$> analytics)).
Proof.
  intros Hnat Hle.
  destruct (grouped_all businesses analytics Hnat Hle)
    as (Hnd & Hkeys & Hints & Hsum).
  unfold AnalyticsCharts.revenueByBusinessData, Map_values.
  split_and!; [|done| |].
  - eapply Forall_impl; [exact Hints|]. intros sl (z & Hz & _). by exists z.
  - rewrite Hsum. unfold Dashboard.analyticsTotalRevenue.
    rewrite sum_from; [done|done|lia|lia].
  - rewrite length_fmap, <- (length_fmap fst).
    apply Permutation_length, NoDup_Permutation;
      [done|apply NoDup_remove_dups|].
    intros k. by rewrite Hkeys, elem_of_remove_dups.
Qed.

End TotalsFacts.

(** ** The session *)

Section Session.

Variable JSON_stringify : record → string.
Variable NumberToString : num → string.

Local Abbreviation login := (AuthContext.login JSON_stringify NumberToString).
Local Abbreviation react_all :=
  (AuthContext.react_all JSON_stringify NumberToString).
Local Abbreviation session_in_sync :=
  (AuthContext.session_in_sync JSON_stringify).

Lemma login_found username password st a :
  find (λ admin,
          strict_equal (prop admin "username") (VStr username) ∧
          strict_equal (prop admin "password") (VStr password))
       AuthContext.MOCK_ADMINS = Some a →
  login username password st =
    (true,
     AuthContext.mkState (Some (delete "password" a)) false
       (<["admin" := JSON_stringify (delete "password" a)]>
          (AuthContext.localStorage st))
       (AuthContext.toasts st ++
          [mkToast None "Login successful"
             ("Welcome back, "
              ++ String_of_value NumberToString (prop a "username")
              ++ "!")])).
Proof. intros Hf. unfold AuthContext.login. cbv zeta. by rewrite Hf. Qed.

Lemma login_not_found username password st :
  find (λ admin,
          strict_equal (prop admin "username") (VStr username) ∧
          strict_equal (prop admin "password") (VStr password))
       AuthContext.MOCK_ADMINS = None →
  login username password st =
    (false,
     AuthContext.mkState (AuthContext.admin st) false
       (AuthContext.localStorage st)
       (AuthContext.toasts st ++
          [mkToast (Some "destructive") "Login failed"
             "Invalid username or password"])).
Proof. intros Hf. unfold AuthContext.login. cbv zeta. by rewrite Hf. Qed.


Lemma react_in_sync st e :
  session_in_sync st →
  session_in_sync (AuthContext.react JSON_stringify NumberToString st e).
Proof.
  intros Hsync. destruct e as [username password|].
  - cbn [AuthContext.react].
    destruct (find (λ admin,
                      strict_equal (prop admin "username") (VStr username) ∧
                      strict_equal (prop admin "password") (VStr password))
                   AuthContext.MOCK_ADMINS) as [a|] eqn:E.
    + rewrite (login_found _ _ _ _ E).
      apply find_Some in E as (i & Hl & _).
      split; [|apply lookup_insert_eq].
      exists a. split; [by eapply list_elem_of_lookup_2|done].
    + by rewrite (login_not_found _ _ _ E).
  - apply lookup_delete_eq.
Qed.


End Session.

(** ** The compositions at the initial businesses *)

Section CompositionExamples.

Local Abbreviation items := (businesses initialStore).
Local Abbreviation getById := (generateCrudService.getById "B_ID").
Local Abbreviation create :=
  (generateCrudService.create anyStringToNumber "B_ID").
Local Abbreviation update := (generateCrudService.update "B_ID").
Local Abbreviation delete := (generateCrudService.delete "B_ID").

Lemma initial_businesses_below : keys_below "B_ID" 4 items.
Proof. repeat constructor; eexists; (split; [reflexivity|lia]). Qed.

Lemma initial_businesses_safe : safe_keys "B_ID" items.
Proof.
  apply (keys_below_weaken _ 4); [lia|exact initial_businesses_below].
Qed.

Lemma initial_businesses_distinct : keys_distinct "B_ID" items.
Proof.
  unfold keys_distinct. apply (bool_decide_unpack _). vm_compute. exact I.
Qed.

Lemma initial_business_1 : id_exists "B_ID" items (n 1).
Proof. eexists. split; [left|]. by apply strict_equal_int. Qed.

Lemma renameBusiness_keeps_key id : keeps_key "B_ID" id renameBusiness.
Proof. intros v Hv. vm_compute in Hv. discriminate. Qed.

Lemma create_then_getById_witness :
  safe_keys "B_ID" items ∧
  getById (create items newBusiness).2
          (prop (create items newBusiness).1 "B_ID")
    = (Some (create items newBusiness).1, (create items newBusiness).2).
Proof.
  split; [exact initial_businesses_safe|].
  exact (create_then_getById anyStringToNumber "B_ID" items newBusiness
           initial_businesses_safe).
Defined.

Lemma update_then_getById_witness :
  id_exists "B_ID" items (n 1) ∧
  keeps_key "B_ID" (n 1) renameBusiness ∧
  ∃ merged,
    (update items (n 1) renameBusiness).1 = Some merged ∧
    getById (update items (n 1) renameBusiness).2 (n 1)
      = (Some merged, (update items (n 1) renameBusiness).2).
Proof.
  split; [exact initial_business_1|].
  split; [exact (renameBusiness_keeps_key (n 1))|].
  exact (update_then_getById "B_ID" items (n 1) renameBusiness
           initial_business_1 (renameBusiness_keeps_key (n 1))).
Defined.

Lemma update_twice_witness :
  id_exists "B_ID" items (n 1) ∧
  keeps_key "B_ID" (n 1) renameBusiness ∧
  update (update items (n 1) renameBusiness).2 (n 1) renameBusiness
    = update items (n 1) renameBusiness.
Proof.
  split; [exact initial_business_1|].
  split; [exact (renameBusiness_keeps_key (n 1))|].
  exact (update_twice "B_ID" items (n 1) renameBusiness
           initial_business_1 (renameBusiness_keeps_key (n 1))).
Defined.

Lemma delete_keeps_other_lookups_witness :
  n 3 ≠ n 2 ∧
  (getById (delete items (n 2)).2 (n 3)).1 = (getById items (n 3)).1.
Proof.
  assert (n 3 ≠ n 2) as Hne by discriminate.
  split; [exact Hne|].
  exact (delete_keeps_other_lookups "B_ID" items (n 2) (n 3) Hne).
Defined.

Lemma update_keeps_other_lookups_witness :
  keeps_key "B_ID" (n 1) renameBusiness ∧
  n 3 ≠ n 1 ∧
  (getById (update items (n 1) renameBusiness).2 (n 3)).1
    = (getById items (n 3)).1.
Proof.
  assert (n 3 ≠ n 1) as Hne by discriminate.
  split; [exact (renameBusiness_keeps_key (n 1))|]. split; [exact Hne|].
  exact (update_keeps_other_lookups "B_ID" items (n 1) (n 3) renameBusiness
           (renameBusiness_keeps_key (n 1)) Hne).
Defined.

Lemma create_keeps_existing_lookups_witness :
  id_exists "B_ID" items (n 1) ∧
  (getById (create items newBusiness).2 (n 1)).1 = (getById items (n 1)).1.
Proof.
  split; [exact initial_business_1|].
  exact (create_keeps_existing_lookups anyStringToNumber "B_ID" items
           newBusiness (n 1) initial_business_1).
Defined.

Lemma calls_keep_integer_distinct_keys_witness :
  keys_below "B_ID" 4 items ∧
  keys_distinct "B_ID" items ∧
  0 < 4 ∧
  4 + Z.of_nat
        (length [Create newBusiness; Update (n 1) renameBusiness;
                 Delete (n 2)]) ≤ 2 ^ 53 ∧
  Forall (key_preserving "B_ID")
    [Create newBusiness; Update (n 1) renameBusiness; Delete (n 2)] ∧
  keys_below "B_ID"
    (4 + Z.of_nat
           (length [Create newBusiness; Update (n 1) renameBusiness;
                    Delete (n 2)]))
    (perform_all anyStringToNumber "B_ID" items
       [Create newBusiness; Update (n 1) renameBusiness; Delete (n 2)]) ∧
  keys_distinct "B_ID"
    (perform_all anyStringToNumber "B_ID" items
       [Create newBusiness; Update (n 1) renameBusiness; Delete (n 2)]).
Proof.
  assert (Forall (key_preserving "B_ID")
            [Create newBusiness; Update (n 1) renameBusiness; Delete (n 2)])
    as Hcalls.
  { constructor; [exact I|].
    constructor; [exact (renameBusiness_keeps_key (n 1))|].
    constructor; [exact I|constructor]. }
  assert (0 < 4) as Hpos by lia.
  assert (4 + Z.of_nat
                (length [Create newBusiness; Update (n 1) renameBusiness;
                         Delete (n 2)]) ≤ 2 ^ 53) as Hbound
    by (cbn [length]; lia).
  split; [exact initial_businesses_below|].
  split; [exact initial_businesses_distinct|].
  split; [exact Hpos|]. split; [exact Hbound|].
  split; [exact Hcalls|].
  exact (calls_keep_integer_distinct_keys anyStringToNumber "B_ID" 4 items _
           initial_businesses_below initial_businesses_distinct Hpos Hbound
           Hcalls).
Defined.

Lemma create_twice_consecutive_ids_witness :
  keys_below "B_ID" (2 ^ 53 - 1) items ∧
  ∃ k,
    prop (create items newBusiness).1 "B_ID" = VNum (Int k) ∧
    prop (create (create items newBusiness).2 newBusiness).1 "B_ID"
      = VNum (Int (k + 1)).
Proof.
  assert (keys_below "B_ID" (2 ^ 53 - 1) items) as Hb
    by (apply (keys_below_weaken _ 4); [lia|exact initial_businesses_below]).
  split; [exact Hb|].
  exact (create_twice_consecutive_ids anyStringToNumber "B_ID" items
           newBusiness newBusiness Hb).
Defined.

Lemma create_with_unconvertible_key_witness :
  (∃ item, item ∈ [unkeyedBusiness] ∧
           Number anyStringToNumber (prop item "B_ID") = NaN) ∧
  prop (create [unkeyedBusiness] newBusiness).1 "B_ID" = VNum NaN ∧
  (create [unkeyedBusiness] newBusiness).1
    ∈ (create [unkeyedBusiness] newBusiness).2 ∧
  getById (create [unkeyedBusiness] newBusiness).2 (VNum NaN)
    = (None, (create [unkeyedBusiness] newBusiness).2) ∧
  update (create [unkeyedBusiness] newBusiness).2 (VNum NaN) renameBusiness
    = (None, (create [unkeyedBusiness] newBusiness).2) ∧
  delete (create [unkeyedBusiness] newBusiness).2 (VNum NaN)
    = (false, (create [unkeyedBusiness] newBusiness).2).
Proof.
  assert (∃ item, item ∈ [unkeyedBusiness] ∧
                  Number anyStringToNumber (prop item "B_ID") = NaN) as Hbad.
  { exists unkeyedBusiness. split; [by left|reflexivity]. }
  split; [exact Hbad|].
  exact (create_with_unconvertible_key anyStringToNumber "B_ID"
           [unkeyedBusiness] newBusiness renameBusiness Hbad).
Defined.

End CompositionExamples.

(** ** The pages at the initial arrays *)

Section PageExamples.

Local Abbreviation totalPages :=
  (DataTable.totalPages anyToLowerCase anyNumberToString).
Local Abbreviation filteredData :=
  (DataTable.filteredData anyToLowerCase anyNumberToString).
Local Abbreviation paginatedData :=
  (DataTable.paginatedData anyToLowerCase anyNumberToString).
Local Abbreviation rendersNoRecords :=
  (DataTable.rendersNoRecords anyToLowerCase anyNumberToString).
Local Abbreviation rendersPagination :=
  (DataTable.rendersPagination anyToLowerCase anyNumberToString).
Local Abbreviation onSubmit := (OfferPage.onSubmit digitToNumber).
Local Abbreviation react_all :=
  (OfferPage.react_all digitToNumber anyNumberToString).
Local Abbreviation totalRevenue :=
  (Dashboard.totalRevenue anyStringToNumber anyNumberToString).
Local Abbreviation analyticsTotalRevenue :=
  (Dashboard.analyticsTotalRevenue anyStringToNumber anyNumberToString).
Local Abbreviation revenueByBusinessData :=
  (AnalyticsCharts.revenueByBusinessData anyStringToNumber anyNumberToString).
Local Abbreviation session_in_sync :=
  (AuthContext.session_in_sync anyJSON_stringify).
Local Abbreviation session_after :=
  (AuthContext.react_all anyJSON_stringify anyNumberToString).

Lemma page_beyond_last_is_empty_witness :
  totalPages "" (offers initialStore) < 2 ∧
  paginatedData "" 2 (offers initialStore) = [] ∧
  rendersNoRecords false "" 2 (offers initialStore) = true ∧
  ((length (filteredData "" (offers initialStore)) ≤ 10)%nat →
   rendersPagination "" (offers initialStore) = false).
Proof.
  assert (totalPages "" (offers initialStore) < 2) as Hpage
    by (vm_compute; reflexivity).
  split; [exact Hpage|].
  exact (page_beyond_last_is_empty anyToLowerCase anyNumberToString "" 2
           (offers initialStore) Hpage).
Defined.

Lemma offer_without_business_witness :
  OfferPage.currentOffer OfferPage.initialState = None ∧
  (OfferPage.B_ID springSale = None ∨ OfferPage.B_ID springSale = Some "") ∧
  ∃ newOffer,
    offers (onSubmit springSale initialStore OfferPage.initialState).1
      = offers initialStore ++ [newOffer] ∧
    OfferPage.offers (onSubmit springSale initialStore OfferPage.initialState).2
      = offers (onSubmit springSale initialStore OfferPage.initialState).1 ∧
    prop newOffer "O_name" = VStr (OfferPage.O_name springSale) ∧
    prop newOffer "B_ID" = VNull ∧
    (∀ id, newOffer ∉ getBusinessOffers
                        (onSubmit springSale initialStore
                           OfferPage.initialState).1 id) ∧
    (Forall (λ b, prop b "B_ID" ≠ VNull)
       (OfferPage.businesses
          (onSubmit springSale initialStore OfferPage.initialState).2) →
     OfferPage.businessColumn
       (onSubmit springSale initialStore OfferPage.initialState).2 newOffer
       = VStr "-").
Proof.
  assert (OfferPage.currentOffer OfferPage.initialState = None) as Hadd
    by reflexivity.
  assert (OfferPage.B_ID springSale = None ∨
          OfferPage.B_ID springSale = Some "") as HB by (left; reflexivity).
  split; [exact Hadd|]. split; [exact HB|].
  exact (offer_without_business digitToNumber springSale initialStore
           OfferPage.initialState Hadd HB).
Defined.

Lemma offer_with_business_witness :
  OfferPage.currentOffer OfferPage.initialState = None ∧
  OfferPage.B_ID springSaleAt2 = Some "2" ∧
  "2" ≠ "" ∧
  digitToNumber "2" ≠ NaN ∧
  ∃ newOffer,
    offers (onSubmit springSaleAt2 initialStore OfferPage.initialState).1
      = offers initialStore ++ [newOffer] ∧
    prop newOffer "B_ID" = VNum (digitToNumber "2") ∧
    getBusinessOffers
      (onSubmit springSaleAt2 initialStore OfferPage.initialState).1
      (digitToNumber "2")
      = getBusinessOffers initialStore (digitToNumber "2") ++ [newOffer] ∧
    (∀ id, id ≠ digitToNumber "2" →
           getBusinessOffers
             (onSubmit springSaleAt2 initialStore OfferPage.initialState).1 id
             = getBusinessOffers initialStore id).
Proof.
  assert (OfferPage.currentOffer OfferPage.initialState = None) as Hadd
    by reflexivity.
  assert (OfferPage.B_ID springSaleAt2 = Some "2") as HB by reflexivity.
  assert ("2" ≠ "") as Hb by discriminate.
  assert (digitToNumber "2" ≠ NaN) as Hnum by (vm_compute; discriminate).
  split; [exact Hadd|]. split; [exact HB|]. split; [exact Hb|].
  split; [exact Hnum|].
  exact (offer_with_business digitToNumber springSaleAt2 initialStore
           OfferPage.initialState "2" Hadd HB Hb Hnum).
Defined.

Lemma edit_of_missing_offer_witness :
  OfferPage.currentOffer (OfferPage.clickEdit goneOffer OfferPage.initialState)
    = Some goneOffer ∧
  ¬ id_exists "offer_id" (offers initialStore) (prop goneOffer "offer_id") ∧
  (onSubmit springSale initialStore
     (OfferPage.clickEdit goneOffer OfferPage.initialState)).1 = initialStore ∧
  OfferPage.offers
    (onSubmit springSale initialStore
       (OfferPage.clickEdit goneOffer OfferPage.initialState)).2
    = offers initialStore ∧
  OfferPage.isDialogOpen
    (onSubmit springSale initialStore
       (OfferPage.clickEdit goneOffer OfferPage.initialState)).2 = false ∧
  title <$> last (OfferPage.toasts
                    (onSubmit springSale initialStore
                       (OfferPage.clickEdit goneOffer
                          OfferPage.initialState)).2)
    = Some "Offer updated".
Proof.
  assert (OfferPage.currentOffer
            (OfferPage.clickEdit goneOffer OfferPage.initialState)
          = Some goneOffer) as Hedit by reflexivity.
  assert (¬ id_exists "offer_id" (offers initialStore)
              (prop goneOffer "offer_id")) as Hno.
  { apply no_id_Forall. apply (bool_decide_unpack _). vm_compute. exact I. }
  split; [exact Hedit|]. split; [exact Hno|].
  exact (edit_of_missing_offer digitToNumber springSale initialStore
           (OfferPage.clickEdit goneOffer OfferPage.initialState) goneOffer
           Hedit Hno).
Defined.

Lemma initial_offers_distinct : keys_distinct "offer_id" (offers initialStore).
Proof.
  unfold keys_distinct. apply (bool_decide_unpack _). vm_compute. exact I.
Qed.

Lemma initial_offers_below : keys_below "offer_id" 4 (offers initialStore).
Proof. repeat constructor; eexists; (split; [reflexivity|lia]). Qed.


Lemma page_keeps_offer_ids_witness :
  keys_below "offer_id" 4 (offers (initialStore, OfferPage.initialState).1) ∧
  keys_distinct "offer_id" (offers (initialStore, OfferPage.initialState).1) ∧
  0 < 4 ∧
  4 + Z.of_nat (length offerEvents) ≤ 2 ^ 53 ∧
  keys_below "offer_id" (4 + Z.of_nat (length offerEvents))
    (offers (react_all (initialStore, OfferPage.initialState) offerEvents).1) ∧
  keys_distinct "offer_id"
    (offers (react_all (initialStore, OfferPage.initialState) offerEvents).1).
Proof.
  assert (0 < 4) as Hpos by lia.
  assert (4 + Z.of_nat (length offerEvents) ≤ 2 ^ 53) as Hbound
    by (vm_compute; discriminate).
  split; [exact initial_offers_below|].
  split; [exact initial_offers_distinct|].
  split; [exact Hpos|]. split; [exact Hbound|].
  exact (page_keeps_offer_ids digitToNumber anyNumberToString 4
           (initialStore, OfferPage.initialState) offerEvents
           initial_offers_below initial_offers_distinct Hpos Hbound).
Defined.

Lemma initial_amounts_natural :
  natural_field "Amount" (transactions initialStore).
Proof. repeat constructor; eexists; (split; [reflexivity|lia]). Qed.

Lemma initial_transactions_distinct :
  keys_distinct "T_ID" (transactions initialStore).
Proof.
  unfold keys_distinct. apply (bool_decide_unpack _). vm_compute. exact I.
Qed.

Lemma totalRevenue_sums_amounts_witness :
  natural_field "Amount" (transactions initialStore) ∧
  prop newTransaction "Amount" = VNum (Int 40) ∧
  0 ≤ 40 ∧
  sum_field "Amount" (transactions initialStore) + 40 ≤ 2 ^ 53 ∧
  totalRevenue (transactions initialStore)
    = VNum (Int (sum_field "Amount" (transactions initialStore))) ∧
  totalRevenue
    (generateCrudService.create anyStringToNumber "T_ID"
       (transactions initialStore) newTransaction).2
    = VNum (Int (sum_field "Amount" (transactions initialStore) + 40)).
Proof.
  assert (prop newTransaction "Amount" = VNum (Int 40)) as Ha by reflexivity.
  assert (0 ≤ 40) as Ha0 by lia.
  assert (sum_field "Amount" (transactions initialStore) + 40 ≤ 2 ^ 53)
    as Hle by (vm_compute; discriminate).
  split; [exact initial_amounts_natural|]. split; [exact Ha|].
  split; [exact Ha0|]. split; [exact Hle|].
  exact (totalRevenue_sums_amounts anyStringToNumber anyNumberToString
           (transactions initialStore) newTransaction 40
           initial_amounts_natural Ha Ha0 Hle).
Defined.


Lemma totalRevenue_NaN_witness :
  Forall (λ t, ∃ k, prop t "Amount" = VNum k)
    [firstTransaction; unpricedTransaction] ∧
  (∃ t, t ∈ [firstTransaction; unpricedTransaction] ∧
        prop t "Amount" = VNum NaN) ∧
  totalRevenue [firstTransaction; unpricedTransaction] = VNum NaN.
Proof.
  assert (Forall (λ t, ∃ k, prop t "Amount" = VNum k)
            [firstTransaction; unpricedTransaction]) as Hnum
    by (repeat constructor; eexists; reflexivity).
  assert (∃ t, t ∈ [firstTransaction; unpricedTransaction] ∧
               prop t "Amount" = VNum NaN) as Hnan.
  { exists unpricedTransaction. split; [right; left|reflexivity]. }
  split; [exact Hnum|]. split; [exact Hnan|].
  exact (totalRevenue_NaN anyStringToNumber anyNumberToString
           [firstTransaction; unpricedTransaction] Hnum Hnan).
Defined.

Lemma initial_revenues_natural :
  natural_field "total_revenue" (analytics initialStore).
Proof. repeat constructor; eexists; (split; [reflexivity|lia]). Qed.

Lemma revenue_pie_adds_up_witness :
  natural_field "total_revenue" (analytics initialStore) ∧
  sum_field "total_revenue" (analytics initialStore) ≤ 2 ^ 53 ∧
  Forall (λ sl, ∃ z, AnalyticsCharts.revenue sl = VNum (Int z))
    (revenueByBusinessData (analytics initialStore)
       (businesses initialStore)) ∧
  slice_sum (revenueByBusinessData (analytics initialStore)
               (businesses initialStore))
    = sum_field "total_revenue" (analytics initialStore) ∧
  analyticsTotalRevenue (analytics initialStore)
    = VNum (Int (slice_sum
                   (revenueByBusinessData (analytics initialStore)
                      (businesses initialStore)))) ∧
  length (revenueByBusinessData (analytics initialStore)
            (businesses initialStore))
    = length (remove_dups ((λ a, prop a "B_ID") <$> analytics initialStore)).
Proof.
  assert (sum_field "total_revenue" (analytics initialStore) ≤ 2 ^ 53) as Hle
    by (vm_compute; discriminate).
  split; [exact initial_revenues_natural|]. split; [exact Hle|].
  exact (revenue_pie_adds_up anyStringToNumber anyNumberToString
           (analytics initialStore) (businesses initialStore)
           initial_revenues_natural Hle).
Defined.


End PageExamples.
